(** * p5-demo: the particle background (src/components/BackgroundP5/index.tsx)

    A shallow embedding of the canvas sketch: the two force laws
    ([calculateGravity], [calculateElasticity]), the [Entity] class, the
    grid builder [createEntities] and the frame loop [draw] with its
    pause/resume switches.

    Numbers.  JavaScript numbers are modelled as real numbers: rounding
    and overflow are not part of the model.  The one operation of the
    sketch that leaves the finite numbers is a division by a distance that
    is zero ([1000 / 0] and [0 / 0] in the gravity law).  Its result is a
    [JsNum], which has NaN and the two infinities; the product and the
    clamp that follow propagate them as JavaScript does, and
    [p.createVector] stores [x || 0], so that a NaN component becomes 0
    and every vector of the sketch has real components.

    [Math.sqrt], [Math.abs], [Math.max] are [sqrt], [Rabs], [Rmax];
    [Math.pow] is [Rpower] on the positive bases the sketch uses (a
    distance that is not zero, [1.7], [0.95]) and 0 on the base 0. *)

From Stdlib Require Import Reals Lra Lia List Bool ZArith.
Import ListNotations.

Open Scope R_scope.

(** ** Settings *)

Module settings.
Definition fps : R := 60.
Definition dotSize : R := 4.
Definition maxGravForce : R := 12.
Definition maxEllasticForce : R := 20.
Definition columns : nat := 80.
Definition columnGap : R := 10.
Definition rows : nat := 40.
Definition rowGap : R := 10.
End settings.

(** ** Helpers from outside the file *)

(** Modelled from the spec: [clamp] of [@/lib/utils], which is not among the
    sources.  The spec says each component is "clamped to
    [[-max, +max]]"; [clamp v lo hi] is the point of [[lo, hi]] nearest to
    [v]. *)
Definition clamp (v lo hi : R) : R := Rmin (Rmax v lo) hi.

(** [Math.pow] on the arguments the sketch passes: a positive base, or the
    base 0 with the positive exponent 1.05, where [Math.pow] gives 0. *)
Definition Math_pow (b e : R) : R :=
  if Req_dec_T b 0 then 0 else Rpower b e.

(** ** JavaScript numbers that may not be finite *)

Inductive JsNum : Type :=
| Num (r : R)
| NaN
| Inf (positive : bool).

(** [a / b] on two finite numbers.  The divisors of the sketch are a
    distance and a power of it, so a zero divisor is [+0]. *)
Definition jsDiv (a b : R) : JsNum :=
  if Req_dec_T b 0 then
    if Req_dec_T a 0 then NaN
    else if Rlt_dec 0 a then Inf true else Inf false
  else Num (a / b).

(** [a * b]. *)
Definition jsMul (a b : JsNum) : JsNum :=
  match a, b with
  | NaN, _ | _, NaN => NaN
  | Num x, Num y => Num (x * y)
  | Inf s, Num y | Num y, Inf s =>
      if Req_dec_T y 0 then NaN
      else if Rlt_dec 0 y then Inf s else Inf (negb s)
  | Inf s, Inf t => Inf (Bool.eqb s t)
  end.

(** Modelled from the spec: [clamp] of [@/lib/utils] on a value that may
    not be finite, as [Math.min(Math.max(v, lo), hi)]: it is [clamp] on a
    number, NaN on NaN ([None]) and a bound on an infinity. *)
Definition clampJs (v : JsNum) (lo hi : R) : option R :=
  match v with
  | Num r => Some (clamp r lo hi)
  | NaN => None
  | Inf true => Some hi
  | Inf false => Some (Rmin lo hi)
  end.

(** ** p5.Vector, in the plane

    The sketch builds every vector with [p.createVector(x, y)] and calls
    [add], [mult] and [dist] on them; the third component stays 0 and is
    left out. *)

Record Vector : Type := createVector { vx : R; vy : R }.

Module Vec.
Definition add (v w : Vector) : Vector :=
  createVector (vx v + vx w) (vy v + vy w).

Definition mult (v : Vector) (n : R) : Vector :=
  createVector (vx v * n) (vy v * n).

Definition dist (v w : Vector) : R :=
  sqrt ((vx w - vx v) * (vx w - vx v) + (vy w - vy v) * (vy w - vy v)).

Definition mag (v : Vector) : R := sqrt (vx v * vx v + vy v * vy v).
End Vec.

(** [p.createVector(x, y)] on components that may be NaN ([None]): p5
    stores [x || 0] and [y || 0], and NaN is falsy. *)
Definition p_createVector (x y : option R) : Vector :=
  createVector (match x with Some r => r | None => 0 end)
               (match y with Some r => r | None => 0 end).

(** ** The force laws *)

(** [calculateGravity point1 point2], lines 32-55.  When the two points
    coincide the direction is [0 / 0], both products are NaN and the
    vector built from them is (0,0). *)
Definition calculateGravity (point1 point2 : Vector) : Vector :=
  let G := 1000 in
  let m1 := 1 in
  let m2 := 1 in
  let dx := vx point2 - vx point1 in
  let dy := vy point2 - vy point1 in
  let distance := sqrt (dx * dx + dy * dy) in
  let forceMagnitude := jsDiv (G * m1 * m2) (Math_pow distance 1.05) in
  let ux := jsDiv dx distance in
  let uy := jsDiv dy distance in
  let fx := clampJs (jsMul forceMagnitude ux)
              (- settings.maxGravForce) settings.maxGravForce in
  let fy := clampJs (jsMul forceMagnitude uy)
              (- settings.maxGravForce) settings.maxGravForce in
  p_createVector fx fy.

(** The magnitude law of [calculateElasticity], lines 64-71. *)
Definition elasticMagnitude (distance : R) : R :=
  if Rle_dec distance 2.62 then Rabs distance
  else Math_pow 1.7 (0.5 * distance - 2) + 2.

(** The direction of [calculateElasticity], lines 74-75: the unit vector,
    or (0,0) when the distance is zero. *)
Definition elasticityDirection (dx dy distance : R) : JsNum * JsNum :=
  let ux := if Req_dec_T distance 0 then Num 0 else jsDiv dx distance in
  let uy := if Req_dec_T distance 0 then Num 0 else jsDiv dy distance in
  (ux, uy).

(** The two components [fx] and [fy] of [calculateElasticity], lines
    58-79, as they are passed to [p.createVector]. *)
Definition elasticityComponents (point1 point2 : Vector) : option R * option R :=
  let dx := vx point2 - vx point1 in
  let dy := vy point2 - vy point1 in
  let distance := sqrt (dx * dx + dy * dy) in
  let forceMagnitude := elasticMagnitude distance in
  let '(ux, uy) := elasticityDirection dx dy distance in
  let fx := clampJs (jsMul (Num forceMagnitude) ux)
              (- settings.maxEllasticForce) settings.maxEllasticForce in
  let fy := clampJs (jsMul (Num forceMagnitude) uy)
              (- settings.maxEllasticForce) settings.maxEllasticForce in
  (fx, fy).

Definition calculateElasticity (point1 point2 : Vector) : Vector :=
  let '(fx, fy) := elasticityComponents point1 point2 in
  p_createVector fx fy.

(** ** The Entity class *)

Record Entity : Type := mkEntity {
  position : Vector;
  velocity : Vector;
  anchor : Vector;
  debug : bool
}.

(** An ellipse drawn on the canvas: centre, width, height. *)
Record Ellipse : Type := ellipse { ex : R; ey : R; ew : R; eh : R }.

Module Entity.
(** [constructor(position, debug)], lines 91-96. *)
Definition new (pos : Vector) (dbg : bool) : Entity :=
  {| position := createVector (vx pos) (vy pos);
     velocity := createVector 0 0;
     anchor := createVector (vx pos) (vy pos);
     debug := dbg || false |}.

Definition getPosition (this : Entity) : Vector := position this.

Definition getAnchor (this : Entity) : Vector := anchor this.

Definition applyForce (force : Vector) (this : Entity) : Entity :=
  {| position := position this;
     velocity := Vec.add (velocity this) force;
     anchor := anchor this;
     debug := debug this |}.

(** The factor of [applyAnchorDamping] as a function of the distance
    between the particle and its anchor, lines 116-124. *)
Definition anchorDampingFactor (distanceToAnchor : R) : R :=
  let minDistance := 8 in
  let safeDistance := Rmax distanceToAnchor minDistance in
  let dampingStrength := 0.95 in
  Math_pow dampingStrength safeDistance.

Definition applyAnchorDamping (this : Entity) : Entity :=
  let point1 := position this in
  let point2 := anchor this in
  let dampingFactor := anchorDampingFactor (Vec.dist point1 point2) in
  {| position := position this;
     velocity := Vec.mult (velocity this) dampingFactor;
     anchor := anchor this;
     debug := debug this |}.

Definition applyMouseDamping (mousePoint : Vector) (this : Entity) : Entity :=
  let point1 := position this in
  let point2 := mousePoint in
  let distance := Vec.dist point1 point2 in
  if Rgt_dec distance 30 then this
  else
    let dampingFactor := clamp (0.05 * distance + 0.0) 0 1 in
    {| position := position this;
       velocity := Vec.mult (velocity this) dampingFactor;
       anchor := anchor this;
       debug := debug this |}.

Definition applyVelocity (this : Entity) : Entity :=
  {| position := Vec.add (position this) (velocity this);
     velocity := velocity this;
     anchor := anchor this;
     debug := debug this |}.

(** [show()] draws a dot and assigns no field: the receiver comes back
    as it was, together with the ellipse sent to the canvas. *)
Definition show (this : Entity) : Entity * Ellipse :=
  (this,
   ellipse (vx (position this)) (vy (position this))
     settings.dotSize settings.dotSize).
End Entity.

(** ** The grid builder *)

(** The body of [createEntities], lines 164-187, with the five settings it
    reads as arguments; the two nested [for] loops push in the order of
    [flat_map] over the column indices and [map] over the row indices. *)
Definition buildGrid (columns rows : nat) (dotSize columnGap rowGap : R)
  : list Entity :=
  let gridWidth := INR columns * dotSize + (INR columns - 1) * columnGap in
  let gridHeight := INR rows * dotSize + (INR rows - 1) * rowGap in
  flat_map (fun i =>
    map (fun j =>
      let x := INR i * (dotSize + columnGap) in
      let y := INR j * (dotSize + rowGap) in
      let x := x - gridWidth / 2 in
      let y := y - gridHeight / 2 in
      Entity.new (createVector x y) (Nat.eqb i 0 && Nat.eqb j 0))
      (seq 0 rows))
    (seq 0 columns).

Definition createEntities : list Entity :=
  buildGrid settings.columns settings.rows
    settings.dotSize settings.columnGap settings.rowGap.

(** Sums of the anchor coordinates over a particle set. *)
Definition sumAnchorX (es : list Entity) : R :=
  fold_right (fun e acc => vx (anchor e) + acc) 0 es.

Definition sumAnchorY (es : list Entity) : R :=
  fold_right (fun e acc => vy (anchor e) + acc) 0 es.

(** ** The frame loop *)

(** What [p.draw] reads from p5 during one frame. *)
Record Host : Type := mkHost {
  mouseX : R;
  mouseY : R;
  windowWidth : R;
  windowHeight : R
}.

Definition Rneqb (a b : R) : bool := if Req_dec_T a b then false else true.

(** Lines 210-211: the pointer in centred coordinates, or [null]. *)
Definition mousePosition (p : Host) : option Vector :=
  if Rneqb (mouseX p) 0 && Rneqb (mouseY p) 0
  then Some (createVector (mouseX p - windowWidth p / 2)
                          (mouseY p - windowHeight p / 2))
  else None.

(** The body of the [for] loop of [p.draw], lines 208-240, for one entity. *)
Definition drawEntity (p : Host) (entity : Entity) : Entity * Ellipse :=
  let mp := mousePosition p in
  let e1 := match mp with
            | Some m =>
                let mouseForce :=
                  calculateGravity (Entity.getPosition entity) m in
                Entity.applyForce mouseForce entity
            | None => entity
            end in
  let anchorForce :=
    calculateElasticity (Entity.getPosition e1) (Entity.getAnchor e1) in
  let e2 := Entity.applyForce anchorForce e1 in
  let e3 := Entity.applyAnchorDamping e2 in
  let e4 := match mp with
            | Some m => Entity.applyMouseDamping m e3
            | None => e3
            end in
  let e5 := Entity.applyVelocity e4 in
  Entity.show e5.

(** [p.draw]: the canvas is cleared, then every entity is stepped and
    drawn, in order. *)
Fixpoint drawAll (p : Host) (es : list Entity) : list Entity * list Ellipse :=
  match es with
  | [] => ([], [])
  | e :: rest =>
      let '(e', dot) := drawEntity p e in
      let '(rest', dots) := drawAll p rest in
      (e' :: rest', dot :: dots)
  end.

(** ** The sketch and its switches *)

Record Sketch : Type := mkSketch {
  entities : list Entity;
  looping : bool;
  canvas : list Ellipse
}.

(** [p.setup], lines 191-201. *)
Definition setup : Sketch :=
  {| entities := createEntities; looping := true; canvas := [] |}.

(** Modelled from the spec: [p.noLoop] and [p.loop] belong to p5, which is
    not part of the repository.  Section 4.4 describes a machine with the two
    states running and paused; the flag [looping] is that state. *)
Definition noLoop (s : Sketch) : Sketch :=
  {| entities := entities s; looping := false; canvas := canvas s |}.

Definition loop (s : Sketch) : Sketch :=
  {| entities := entities s; looping := true; canvas := canvas s |}.

(** One call of [p.draw]. *)
Definition draw (p : Host) (s : Sketch) : Sketch :=
  let '(es, dots) := drawAll p (entities s) in
  {| entities := es; looping := looping s; canvas := dots |}.

(** The page: [None] until [p.setup] has run.  Until then the module-level
    slots [pauseFn] and [resumeFn] hold [() => undefined]; [p.setup] stores
    [p.noLoop] and [p.loop] in them. *)
Definition Page : Type := option Sketch.

Definition pauseFn (pg : Page) : Page := option_map noLoop pg.

Definition resumeFn (pg : Page) : Page := option_map loop pg.

Inductive Event : Type :=
| Setup
| Tick (p : Host)      (* the host's frame timer fires *)
| Pause
| Resume
| Rebuild.             (* the debounced [createEntities] of a resize fires *)

(** Modelled from the spec: one event of the page.  The frame scheduler
    belongs to p5; following sections 4.4 and 5, [p.draw] runs on a tick
    only while the sketch is running. *)
Definition step (pg : Page) (ev : Event) : Page :=
  match ev, pg with
  | Setup, _ => Some setup
  | Tick p, Some s => if looping s then Some (draw p s) else pg
  | Tick _, None => pg
  | Pause, _ => pauseFn pg
  | Resume, _ => resumeFn pg
  | Rebuild, Some s =>
      Some {| entities := createEntities;
              looping := looping s;
              canvas := canvas s |}
  | Rebuild, None => pg
  end.

Fixpoint run (pg : Page) (evs : list Event) : Page :=
  match evs with
  | [] => pg
  | ev :: rest => run (step pg ev) rest
  end.

Definition isRunning (pg : Page) : bool :=
  match pg with Some s => looping s | None => false end.

Definition positions (pg : Page) : list Vector :=
  match pg with Some s => map position (entities s) | None => [] end.

(** ** The frame as the spec words it (section 4.4)

    Two reference pipelines for one particle, written from the seven steps
    of the spec and compared with [drawEntity] below. *)

(** Pointer absent: steps 3, 4, 6 and 7 only. *)
Definition frameWithoutPointer (e : Entity) : Entity * Ellipse :=
  let e := Entity.applyForce (calculateElasticity (position e) (anchor e)) e in
  let e := Entity.applyAnchorDamping e in
  let e := Entity.applyVelocity e in
  Entity.show e.

(** Pointer present at [m]: steps 2 to 7. *)
Definition frameWithPointer (m : Vector) (e : Entity) : Entity * Ellipse :=
  let e := Entity.applyForce (calculateGravity (position e) m) e in
  let e := Entity.applyForce (calculateElasticity (position e) (anchor e)) e in
  let e := Entity.applyAnchorDamping e in
  let e := Entity.applyMouseDamping m e in
  let e := Entity.applyVelocity e in
  Entity.show e.

(** The pointer of a host in centred coordinates. *)
Definition centred (p : Host) : Vector :=
  createVector (mouseX p - windowWidth p / 2) (mouseY p - windowHeight p / 2).

(** Events that neither restart the loop nor replace the particle set. *)
Definition isTickOrPause (ev : Event) : bool :=
  match ev with
  | Tick _ | Pause => true
  | _ => false
  end.

(** Events that keep the particle set: all but the two that build a grid. *)
Definition keepsParticles (ev : Event) : bool :=
  match ev with
  | Setup | Rebuild => false
  | _ => true
  end.

Definition anchors (pg : Page) : list Vector :=
  match pg with Some s => map anchor (entities s) | None => [] end.

(** Events that bring the loop (back) to the running state. *)
Definition startsLoop (ev : Event) : bool :=
  match ev with
  | Setup | Resume => true
  | _ => false
  end.

Definition isRebuild (ev : Event) : bool :=
  match ev with
  | Rebuild => true
  | _ => false
  end.

(** ** Auxiliary definitions for the statements *)

(** The magnitude law of the spec, [G / |d|^1.05] with [G = 1000]. *)
Definition gravityMagnitude (d : R) : R := 1000 / Math_pow d 1.05.

(** The point at distance [d] from [a] in the direction [u]. *)
Definition pointAt (a u : Vector) (d : R) : Vector :=
  createVector (vx a + d * vx u) (vy a + d * vy u).

Definition isUnit (u : Vector) : Prop := vx u * vx u + vy u * vy u = 1.

(** Sum of a real-valued function over a list of indices. *)
Definition sumOver (f : nat -> R) (l : list nat) : R :=
  fold_right (fun i acc => f i + acc) 0 l.

(** The particle of the examples: at the origin, moving right. *)
Definition movingRight : Entity :=
  {| position := createVector 0 0;
     velocity := createVector 1 0;
     anchor := createVector 0 0;
     debug := false |}.

(** ** The page component and the hooks *)

(** [BackgroundP5], line 254: the sketch is to be paused when the element
    is not visible or the mouse is stagnant. *)
Definition isPaused (isVisible isStagnant : bool) : bool :=
  negb isVisible || isStagnant.

(** The effect of lines 263-269, which calls one of the two slots. *)
Definition lifecycleEffect (isVisible isStagnant : bool) (pg : Page) : Page :=
  if isPaused isVisible isStagnant then pauseFn pg else resumeFn pg.

(** [useOnce] of lib/hooks.ts, lines 36-49.  The state is the ref
    [hasRun]; [calls] counts the calls of [fn]. *)
Record OnceState : Type := mkOnce { hasRun : bool; calls : nat }.

(** One run of the effect, with the current [trigger] and [reset]. *)
Definition useOnceEffect (trigger reset : bool) (st : OnceState) : OnceState :=
  let st1 :=
    if trigger && negb (hasRun st)
    then {| hasRun := true; calls := S (calls st) |}
    else st in
  if reset then {| hasRun := false; calls := calls st1 |} else st1.

(** The effect run once per element of [deps] (a pair [trigger], [reset]),
    starting from the fresh ref. *)
Definition useOnceRuns (deps : list (bool * bool)) : OnceState :=
  fold_left (fun st d => useOnceEffect (fst d) (snd d) st) deps
    {| hasRun := false; calls := 0 |}.

(** ** Further auxiliary definitions *)

Definition negate (v : Vector) : Vector := createVector (- vx v) (- vy v).

(** [y] has the sign of [x]. *)
Definition sameSign (x y : R) : Prop :=
  (0 < x -> 0 < y) /\ (x < 0 -> y < 0) /\ (x = 0 -> y = 0).

(** A particle at rest at its anchor. *)
Definition atRest (e : Entity) : Prop :=
  position e = anchor e /\ velocity e = createVector 0 0.

(** Both velocity components within [[-65, 65]]. *)
Definition velocityBounded (e : Entity) : Prop :=
  Rabs (vx (velocity e)) <= 65 /\ Rabs (vy (velocity e)) <= 65.

(** What every page that has been set up satisfies. *)
Definition pageInvariant (pg : Page) : Prop :=
  match pg with
  | None => True
  | Some s =>
      map anchor (entities s) = map anchor createEntities /\
      Forall velocityBounded (entities s)
  end.

Definition centre (d : Ellipse) : Vector := createVector (ex d) (ey d).

(** The dot [show] draws for a particle sitting on its anchor. *)
Definition dotAtAnchor (e : Entity) : Ellipse :=
  ellipse (vx (anchor e)) (vy (anchor e)) settings.dotSize settings.dotSize.

(** The anchor of the particle of column [i] and row [j] of a grid. *)
Definition gridAnchor (c r : nat) (s cg rg : R) (i j : nat) : Vector :=
  createVector
    (INR i * (s + cg) - (INR c * s + (INR c - 1) * cg) / 2)
    (INR j * (s + rg) - (INR r * s + (INR r - 1) * rg) / 2).

(** * Properties *)

(** ** Clamping *)

(** Case analysis on the comparisons inside [Rmin], [Rmax] and [Rabs],
    innermost first. *)
Ltac split_cmp :=
  unfold Rmin, Rmax, Rabs;
  repeat match goal with
         | |- context [Rle_dec ?a ?b] =>
             lazymatch a with
             | context [Rle_dec _ _] => fail
             | _ => destruct (Rle_dec a b)
             end
         | |- context [Rcase_abs ?a] =>
             lazymatch a with
             | context [Rle_dec _ _] => fail
             | _ => destruct (Rcase_abs a)
             end
         end.

Lemma clamp_bounds (v lo hi : R) : lo <= hi -> lo <= clamp v lo hi <= hi.
Proof. intros Hle. unfold clamp. split_cmp; lra. Qed.

Lemma clamp_inside (v lo hi : R) : lo <= v <= hi -> clamp v lo hi = v.
Proof. intros [H1 H2]. unfold clamp. split_cmp; lra. Qed.

Lemma clamp_mono (v w lo hi : R) :
  v <= w -> clamp v lo hi <= clamp w lo hi.
Proof. intros H. unfold clamp. split_cmp; lra. Qed.

Lemma clamp_sym_abs (v m : R) :
  0 <= m -> Rabs (clamp v (- m) m) = Rmin (Rabs v) m.
Proof. intros Hm. unfold clamp. split_cmp; lra. Qed.

(** ** Distances *)

Lemma sumsq_nonneg (a b : R) : 0 <= a * a + b * b.
Proof. nra. Qed.

Lemma sqrt_sumsq_zero (a b : R) : sqrt (a * a + b * b) = 0 -> a = 0 /\ b = 0.
Proof.
  intros H. apply sqrt_eq_0 in H; [| apply sumsq_nonneg]. split; nra.
Qed.

Lemma dist_self (a : Vector) : Vec.dist a a = 0.
Proof.
  unfold Vec.dist. rewrite !Rminus_diag, Rmult_0_l, Rplus_0_l. apply sqrt_0.
Qed.

Lemma dist_pos (a b : Vector) : a <> b -> 0 < Vec.dist a b.
Proof.
  intros Hne. unfold Vec.dist.
  destruct (sqrt_pos ((vx b - vx a) * (vx b - vx a) + (vy b - vy a) * (vy b - vy a)))
    as [Hpos | Hz]; [exact Hpos |].
  symmetry in Hz. apply sqrt_sumsq_zero in Hz. destruct Hz as [Hx Hy].
  exfalso. apply Hne. destruct a, b; simpl in *. f_equal; lra.
Qed.

(** ** The force laws on real numbers *)

Lemma Math_pow_pos (b e : R) : 0 < b -> Math_pow b e = Rpower b e.
Proof.
  intros Hb. unfold Math_pow.
  destruct (Req_dec_T b 0) as [Hz | _]; [exfalso; lra | reflexivity].
Qed.

Lemma jsDiv_num (a b : R) : b <> 0 -> jsDiv a b = Num (a / b).
Proof.
  intros Hb. unfold jsDiv.
  destruct (Req_dec_T b 0) as [Hz | _]; [contradiction | reflexivity].
Qed.

(** [calculateElasticity] never meets a NaN: it is the clamp of real
    products, with the direction 0 at distance zero. *)
Lemma calculateElasticity_real (point1 point2 : Vector) :
  calculateElasticity point1 point2
  = createVector
      (clamp
         (elasticMagnitude
            (sqrt ((vx point2 - vx point1) * (vx point2 - vx point1)
                   + (vy point2 - vy point1) * (vy point2 - vy point1)))
          * (if Req_dec_T
                  (sqrt ((vx point2 - vx point1) * (vx point2 - vx point1)
                         + (vy point2 - vy point1) * (vy point2 - vy point1)))
                  0
             then 0
             else (vx point2 - vx point1)
                  / sqrt ((vx point2 - vx point1) * (vx point2 - vx point1)
                          + (vy point2 - vy point1) * (vy point2 - vy point1))))
         (- settings.maxEllasticForce) settings.maxEllasticForce)
      (clamp
         (elasticMagnitude
            (sqrt ((vx point2 - vx point1) * (vx point2 - vx point1)
                   + (vy point2 - vy point1) * (vy point2 - vy point1)))
          * (if Req_dec_T
                  (sqrt ((vx point2 - vx point1) * (vx point2 - vx point1)
                         + (vy point2 - vy point1) * (vy point2 - vy point1)))
                  0
             then 0
             else (vy point2 - vy point1)
                  / sqrt ((vx point2 - vx point1) * (vx point2 - vx point1)
                          + (vy point2 - vy point1) * (vy point2 - vy point1))))
         (- settings.maxEllasticForce) settings.maxEllasticForce).
Proof.
  unfold calculateElasticity, elasticityComponents, elasticityDirection.
  cbv zeta.
  destruct (Req_dec_T _ 0) as [Hz | Hnz].
  - reflexivity.
  - rewrite !jsDiv_num by exact Hnz. reflexivity.
Qed.

(** ** C10, C7: construction and the degenerate spring *)

(** C10. A particle is constructed at rest at its rest position: the
    position and the anchor of [new Entity(pt, dbg)] are both [pt] and the
    velocity is (0,0). *)
Theorem C10_constructor_at_rest (pt : Vector) (dbg : bool) :
  position (Entity.new pt dbg) = pt /\
  anchor (Entity.new pt dbg) = pt /\
  position (Entity.new pt dbg) = anchor (Entity.new pt dbg) /\
  velocity (Entity.new pt dbg) = createVector 0 0.
Proof.
  destruct pt as [px py]. unfold Entity.new. simpl. repeat split.
Qed.

Lemma elasticMagnitude_zero : elasticMagnitude 0 = 0.
Proof.
  unfold elasticMagnitude. destruct (Rle_dec 0 2.62) as [_ | Hn].
  - apply Rabs_R0.
  - exfalso. apply Hn. lra.
Qed.

Lemma elasticityDirection_zero (dx dy : R) :
  elasticityDirection dx dy 0 = (Num 0, Num 0).
Proof.
  unfold elasticityDirection. cbv zeta.
  destruct (Req_dec_T 0 0) as [_ | Hn]; [reflexivity |].
  exfalso. apply Hn. reflexivity.
Qed.

Lemma elasticityComponents_self (a : Vector) :
  elasticityComponents a a = (Some 0, Some 0).
Proof.
  unfold elasticityComponents. cbv zeta.
  rewrite !Rminus_diag, Rmult_0_l, Rplus_0_l, sqrt_0.
  rewrite elasticityDirection_zero, elasticMagnitude_zero.
  cbn [jsMul clampJs]. rewrite Rmult_0_l.
  rewrite clamp_inside; [reflexivity |].
  unfold settings.maxEllasticForce. lra.
Qed.

(** C7. The spring force between a point and itself is the zero vector,
    and no division by zero takes part in it: the distance is 0, the
    magnitude is 0, the direction is the pair of numbers (0,0) rather
    than the quotient [0 / 0] (which is NaN), and both components handed
    to [p.createVector] are the number 0. *)
Theorem C7_elasticity_self_zero (a : Vector) :
  elasticMagnitude 0 = 0 /\
  elasticityDirection (vx a - vx a) (vy a - vy a) 0 = (Num 0, Num 0) /\
  jsDiv 0 0 = NaN /\
  elasticityComponents a a = (Some 0, Some 0) /\
  calculateElasticity a a = createVector 0 0.
Proof.
  split; [apply elasticMagnitude_zero |].
  split; [apply elasticityDirection_zero |].
  split.
  - unfold jsDiv.
    destruct (Req_dec_T 0 0) as [_ | Hn]; [reflexivity |].
    exfalso. apply Hn. reflexivity.
  - split; [apply elasticityComponents_self |].
    unfold calculateElasticity. rewrite elasticityComponents_self. reflexivity.
Qed.

(** ** C8: the anchor is never written *)

Lemma anchor_applyMouseDamping (m : Vector) (e : Entity) :
  anchor (Entity.applyMouseDamping m e) = anchor e.
Proof.
  unfold Entity.applyMouseDamping. cbv zeta.
  destruct (Rgt_dec _ 30); reflexivity.
Qed.

Lemma drawEntity_anchor (p : Host) (e : Entity) :
  anchor (fst (drawEntity p e)) = anchor e.
Proof.
  unfold drawEntity. cbv zeta.
  destruct (mousePosition p) as [m |]; simpl.
  - now rewrite anchor_applyMouseDamping.
  - reflexivity.
Qed.

Lemma drawAll_cons (p : Host) (e : Entity) (rest : list Entity) :
  drawAll p (e :: rest)
  = (fst (drawEntity p e) :: fst (drawAll p rest),
     snd (drawEntity p e) :: snd (drawAll p rest)).
Proof.
  cbn [drawAll]. destruct (drawEntity p e) as [e' dot].
  destruct (drawAll p rest) as [rest' dots]. reflexivity.
Qed.

Lemma draw_entities (p : Host) (s : Sketch) :
  entities (draw p s) = fst (drawAll p (entities s)).
Proof. unfold draw. destruct (drawAll p (entities s)). reflexivity. Qed.

Lemma draw_canvas (p : Host) (s : Sketch) :
  canvas (draw p s) = snd (drawAll p (entities s)).
Proof. unfold draw. destruct (drawAll p (entities s)). reflexivity. Qed.

Lemma draw_looping (p : Host) (s : Sketch) : looping (draw p s) = looping s.
Proof. unfold draw. destruct (drawAll p (entities s)). reflexivity. Qed.

Lemma drawAll_anchor (p : Host) (es : list Entity) :
  map anchor (fst (drawAll p es)) = map anchor es.
Proof.
  induction es as [| e rest IH]; [reflexivity |].
  rewrite drawAll_cons. cbn [fst map]. now rewrite drawEntity_anchor, IH.
Qed.

Lemma draw_anchor (p : Host) (s : Sketch) :
  map anchor (entities (draw p s)) = map anchor (entities s).
Proof. rewrite draw_entities. apply drawAll_anchor. Qed.

Lemma step_anchors (pg : Page) (ev : Event) :
  keepsParticles ev = true -> anchors (step pg ev) = anchors pg.
Proof.
  destruct ev; cbn [keepsParticles]; try discriminate; intros _;
    destruct pg as [s |]; cbn [step pauseFn resumeFn option_map];
    try reflexivity.
  destruct (looping s); [| reflexivity].
  cbn [anchors]. apply draw_anchor.
Qed.

Lemma run_anchors (evs : list Event) (pg : Page) :
  forallb keepsParticles evs = true -> anchors (run pg evs) = anchors pg.
Proof.
  revert pg. induction evs as [| ev rest IH]; intros pg; [reflexivity |].
  cbn [forallb run]. intros H. apply andb_true_iff in H. destruct H as [Hev Hrest].
  rewrite (IH _ Hrest). now apply step_anchors.
Qed.

(** C8. No particle operation writes the anchor: [applyForce],
    [applyAnchorDamping], [applyMouseDamping], [applyVelocity] and [show]
    return a particle with the anchor it had; so does the loop body of a
    frame for every particle and every pointer, a particle sitting on the
    pointer included; so does every whole frame; and so does every
    sequence of ticks, pauses and resumes. *)
Theorem C8_anchor_never_mutated :
  (forall f e, anchor (Entity.applyForce f e) = anchor e) /\
  (forall e, anchor (Entity.applyAnchorDamping e) = anchor e) /\
  (forall m e, anchor (Entity.applyMouseDamping m e) = anchor e) /\
  (forall e, anchor (Entity.applyVelocity e) = anchor e) /\
  (forall e, anchor (fst (Entity.show e)) = anchor e) /\
  (forall p e, anchor (fst (drawEntity p e)) = anchor e) /\
  (forall p s, map anchor (entities (draw p s)) = map anchor (entities s)) /\
  (forall pg evs,
      forallb keepsParticles evs = true ->
      anchors (run pg evs) = anchors pg).
Proof.
  repeat split; try reflexivity.
  - intros m e. apply anchor_applyMouseDamping.
  - intros p e. apply drawEntity_anchor.
  - intros p s. apply draw_anchor.
  - intros pg evs. apply run_anchors.
Qed.

Lemma C8_witness :
  anchors (run (Some setup)
             [Tick (mkHost 405 305 800 600); Pause; Resume;
              Tick (mkHost 10 20 800 600)])
  = anchors (Some setup).
Proof.
  destruct C8_anchor_never_mutated as [_ [_ [_ [_ [_ [_ [_ Hrun]]]]]]].
  apply (Hrun (Some setup)). reflexivity.
Defined.

(** ** C5: when the pointer counts as absent *)

Lemma Rneqb_true (a b : R) : Rneqb a b = true <-> a <> b.
Proof.
  unfold Rneqb. destruct (Req_dec_T a b); split; intros; congruence.
Qed.

Lemma Rneqb_false (a b : R) : Rneqb a b = false <-> a = b.
Proof.
  unfold Rneqb. destruct (Req_dec_T a b); split; intros; congruence.
Qed.

Lemma mousePosition_None (p : Host) :
  mousePosition p = None <-> (mouseX p = 0 \/ mouseY p = 0).
Proof.
  unfold mousePosition.
  destruct (Rneqb (mouseX p) 0) eqn:Hx; destruct (Rneqb (mouseY p) 0) eqn:Hy;
    simpl; rewrite ?Rneqb_true, ?Rneqb_false in *; split; intros H;
    try discriminate; try tauto.
Qed.

Lemma mousePosition_Some (p : Host) :
  mouseX p <> 0 -> mouseY p <> 0 -> mousePosition p = Some (centred p).
Proof.
  intros Hx Hy. unfold mousePosition.
  apply Rneqb_true in Hx. apply Rneqb_true in Hy. now rewrite Hx, Hy.
Qed.

(** C5, as the code has it.  The pointer is absent exactly when at least
    one raw coordinate is zero: the frame then runs the spring, the anchor
    damping, the integration and the rendering only.  When both raw
    coordinates are nonzero the frame also applies gravity toward the
    centred pointer and the mouse damping. *)
Theorem C5_pointer_absent_when_a_coordinate_is_zero (p : Host) (e : Entity) :
  (mousePosition p = None <-> (mouseX p = 0 \/ mouseY p = 0)) /\
  (mouseX p = 0 \/ mouseY p = 0 ->
   drawEntity p e = frameWithoutPointer e) /\
  (mouseX p <> 0 /\ mouseY p <> 0 ->
   drawEntity p e = frameWithPointer (centred p) e).
Proof.
  split; [apply mousePosition_None |]. split.
  - intros H. apply mousePosition_None in H.
    unfold drawEntity. cbv zeta. rewrite H. reflexivity.
  - intros [Hx Hy]. unfold drawEntity, frameWithPointer. cbv zeta.
    rewrite (mousePosition_Some p Hx Hy). reflexivity.
Qed.

Lemma C5_witness :
  drawEntity (mkHost 0 5 800 600) (Entity.new (createVector 0 0) false)
  = frameWithoutPointer (Entity.new (createVector 0 0) false).
Proof.
  apply (C5_pointer_absent_when_a_coordinate_is_zero
           (mkHost 0 5 800 600) (Entity.new (createVector 0 0) false)).
  left. reflexivity.
Defined.

(** C5, as stated, fails at the raw pointer (0, 5): one coordinate is
    nonzero, yet the pointer is absent and the frame is the
    pointer-absent frame. *)
Lemma C5_counterexample :
  let p := mkHost 0 5 800 600 in
  let e := Entity.new (createVector 0 0) false in
  (mouseX p <> 0 \/ mouseY p <> 0) /\
  ~ (mouseX p = 0 /\ mouseY p = 0) /\
  mousePosition p = None /\
  drawEntity p e = frameWithoutPointer e.
Proof.
  cbv zeta.
  assert (Hnone : mousePosition (mkHost 0 5 800 600) = None).
  { apply mousePosition_None. left. reflexivity. }
  repeat split.
  - right. simpl. lra.
  - simpl. lra.
  - exact Hnone.
  - unfold drawEntity. cbv zeta. rewrite Hnone. reflexivity.
Qed.

(** ** C9: pause and resume *)

Lemma step_paused_tick (s : Sketch) (p : Host) :
  looping s = false -> step (Some s) (Tick p) = Some s.
Proof. intros H. simpl. now rewrite H. Qed.

Lemma noLoop_paused (s : Sketch) : looping s = false -> noLoop s = s.
Proof. destruct s as [es l c]. simpl. intros ->. reflexivity. Qed.

Lemma loop_running (s : Sketch) : looping s = true -> loop s = s.
Proof. destruct s as [es l c]. simpl. intros ->. reflexivity. Qed.

Lemma run_paused (s : Sketch) (evs : list Event) :
  looping s = false ->
  forallb isTickOrPause evs = true ->
  run (Some s) evs = Some s.
Proof.
  intros Hs. induction evs as [| ev rest IH]; [reflexivity |].
  cbn [forallb]. intros H. apply andb_true_iff in H. destruct H as [Hev Hrest].
  destruct ev; simpl in Hev; try discriminate; cbn [run].
  - rewrite (step_paused_tick s p Hs). now apply IH.
  - cbn [step pauseFn option_map]. rewrite (noLoop_paused s Hs). now apply IH.
Qed.

(** While paused, ticks and pauses can be dropped from any trace that does
    not restart the loop: only the rebuilds of the grid, which replace the
    particle set by fresh particles, are left. *)
Lemma run_paused_rebuilds (s : Sketch) (evs : list Event) :
  looping s = false ->
  forallb (fun ev => negb (startsLoop ev)) evs = true ->
  run (Some s) evs = run (Some s) (filter isRebuild evs).
Proof.
  revert s. induction evs as [| ev rest IH]; intros s Hs; [reflexivity |].
  cbn [forallb]. intros H. apply andb_true_iff in H. destruct H as [Hev Hrest].
  destruct ev; simpl in Hev; try discriminate; cbn [filter isRebuild run].
  - rewrite (step_paused_tick s p Hs). now apply IH.
  - cbn [step pauseFn option_map]. rewrite (noLoop_paused s Hs). now apply IH.
  - cbn [step]. apply IH; [exact Hs | exact Hrest].
Qed.

(** C9. After [pause()] on a running sketch, any sequence of frame ticks
    and further pauses leaves the page in the paused state it entered: no
    position changes.  More generally, until the loop is restarted the
    frame ticks have no effect at all.  [pause()] on a paused page and
    [resume()] on a running page change nothing. *)
Theorem C9_pause_freezes_positions :
  (forall s evs,
      isRunning (Some s) = true ->
      forallb isTickOrPause evs = true ->
      run (Some s) (Pause :: evs) = Some (noLoop s) /\
      positions (Some (noLoop s)) = positions (Some s)) /\
  (forall s evs,
      isRunning (Some s) = true ->
      forallb (fun ev => negb (startsLoop ev)) evs = true ->
      run (Some s) (Pause :: evs)
      = run (Some (noLoop s)) (filter isRebuild evs)) /\
  (forall pg, isRunning pg = false -> pauseFn pg = pg) /\
  (forall pg, isRunning pg = true -> resumeFn pg = pg).
Proof.
  split; [| split; [| split]].
  - intros s evs _ Hevs. split; [| reflexivity].
    simpl. apply run_paused; [reflexivity | exact Hevs].
  - intros s evs _ Hevs. simpl. apply run_paused_rebuilds; [reflexivity | exact Hevs].
  - intros [s |] H; simpl in *; [| reflexivity].
    now rewrite noLoop_paused.
  - intros [s |] H; simpl in *; [| discriminate].
    now rewrite loop_running.
Qed.

Lemma C9_witness :
  run (Some setup) [Pause; Tick (mkHost 100 100 800 600); Pause;
                    Tick (mkHost 120 90 800 600)]
  = Some (noLoop setup) /\
  pauseFn (Some (noLoop setup)) = Some (noLoop setup) /\
  resumeFn (Some setup) = Some setup.
Proof.
  destruct C9_pause_freezes_positions as [Hrun [_ [Hpause Hresume]]].
  split; [| split].
  - apply (Hrun setup [Tick (mkHost 100 100 800 600); Pause;
                       Tick (mkHost 120 90 800 600)]); reflexivity.
  - apply (Hpause (Some (noLoop setup))). reflexivity.
  - apply (Hresume (Some setup)). reflexivity.
Defined.

(** ** C6: the grid *)

Lemma length_flat_map_const {A B : Type} (f : A -> list B) (n : nat) (l : list A) :
  (forall a, length (f a) = n) -> length (flat_map f l) = (length l * n)%nat.
Proof.
  intros Hf. induction l as [| a l IH]; simpl; [reflexivity |].
  now rewrite length_app, Hf, IH.
Qed.

Lemma length_buildGrid (c r : nat) (s cg rg : R) :
  length (buildGrid c r s cg rg) = (c * r)%nat.
Proof.
  unfold buildGrid. cbv zeta.
  rewrite (length_flat_map_const _ r).
  - now rewrite length_seq.
  - intros i. now rewrite length_map, length_seq.
Qed.

Lemma sumAnchorX_app (l1 l2 : list Entity) :
  sumAnchorX (l1 ++ l2) = sumAnchorX l1 + sumAnchorX l2.
Proof.
  induction l1 as [| e l1 IH]; simpl; [lra |].
  unfold sumAnchorX in *. simpl. rewrite IH. lra.
Qed.

Lemma sumAnchorY_app (l1 l2 : list Entity) :
  sumAnchorY (l1 ++ l2) = sumAnchorY l1 + sumAnchorY l2.
Proof.
  induction l1 as [| e l1 IH]; simpl; [lra |].
  unfold sumAnchorY in *. simpl. rewrite IH. lra.
Qed.

Lemma sumOver_cons (f : nat -> R) (i : nat) (l : list nat) :
  sumOver f (i :: l) = f i + sumOver f l.
Proof. reflexivity. Qed.

Lemma sumOver_app (f : nat -> R) (l1 l2 : list nat) :
  sumOver f (l1 ++ l2) = sumOver f l1 + sumOver f l2.
Proof.
  induction l1 as [| i l1 IH]; [simpl; lra |].
  cbn [app]. rewrite !sumOver_cons, IH. lra.
Qed.

Lemma sumOver_affine (a b : R) (l : list nat) :
  sumOver (fun i => INR i * a - b) l = a * sumOver INR l - b * INR (length l).
Proof.
  induction l as [| i l IH]; [simpl; lra |].
  rewrite !sumOver_cons, IH. cbn [length]. rewrite S_INR. lra.
Qed.

Lemma sumOver_seq (n : nat) : 2 * sumOver INR (seq 0 n) = INR n * (INR n - 1).
Proof.
  induction n as [| n IH]; [simpl; lra |].
  rewrite seq_S, sumOver_app, S_INR. simpl. lra.
Qed.

(** One column of the grid: its anchors all have the abscissa of the
    column, and their ordinates are those of the rows. *)
Lemma sumAnchorX_column (x : R) (g : nat -> R) (b : nat -> bool) (l : list nat) :
  sumAnchorX (map (fun j => Entity.new (createVector x (g j)) (b j)) l)
  = INR (length l) * x.
Proof.
  induction l as [| j l IH]; [simpl; lra |].
  cbn [map length]. unfold sumAnchorX in *. cbn [fold_right].
  rewrite IH, S_INR. simpl. lra.
Qed.

Lemma sumAnchorY_column (x : R) (g : nat -> R) (b : nat -> bool) (l : list nat) :
  sumAnchorY (map (fun j => Entity.new (createVector x (g j)) (b j)) l)
  = sumOver g l.
Proof.
  induction l as [| j l IH]; [reflexivity |].
  cbn [map]. rewrite sumOver_cons, <- IH. reflexivity.
Qed.

Lemma sumAnchorX_grid (fx : nat -> R) (g : nat -> R) (b : nat -> nat -> bool)
      (rowsL colsL : list nat) :
  sumAnchorX (flat_map (fun i =>
      map (fun j => Entity.new (createVector (fx i) (g j)) (b i j)) rowsL) colsL)
  = INR (length rowsL) * sumOver fx colsL.
Proof.
  induction colsL as [| i colsL IH]; [simpl; unfold sumAnchorX; simpl; lra |].
  cbn [flat_map]. rewrite sumOver_cons.
  rewrite sumAnchorX_app, IH, (sumAnchorX_column (fx i) g (b i)). lra.
Qed.

Lemma sumAnchorY_grid (fx : nat -> R) (g : nat -> R) (b : nat -> nat -> bool)
      (rowsL colsL : list nat) :
  sumAnchorY (flat_map (fun i =>
      map (fun j => Entity.new (createVector (fx i) (g j)) (b i j)) rowsL) colsL)
  = INR (length colsL) * sumOver g rowsL.
Proof.
  induction colsL as [| i colsL IH]; [simpl; unfold sumAnchorY; simpl; lra |].
  cbn [flat_map length].
  rewrite sumAnchorY_app, IH, (sumAnchorY_column (fx i) g (b i)), S_INR. lra.
Qed.

(** The anchors of a grid are centred on [(-dotSize/2, -dotSize/2)]. *)
Lemma sumAnchor_buildGrid (c r : nat) (s cg rg : R) :
  sumAnchorX (buildGrid c r s cg rg) = - (INR c * INR r * (s / 2)) /\
  sumAnchorY (buildGrid c r s cg rg) = - (INR c * INR r * (s / 2)).
Proof.
  unfold buildGrid. cbv zeta. split.
  - rewrite (sumAnchorX_grid
               (fun i => INR i * (s + cg) - (INR c * s + (INR c - 1) * cg) / 2)
               (fun j => INR j * (s + rg) - (INR r * s + (INR r - 1) * rg) / 2)
               (fun i j => Nat.eqb i 0 && Nat.eqb j 0)).
    rewrite sumOver_affine, !length_seq.
    pose proof (sumOver_seq c) as Hc.
    replace (sumOver INR (seq 0 c)) with (INR c * (INR c - 1) / 2) by lra.
    field.
  - rewrite (sumAnchorY_grid
               (fun i => INR i * (s + cg) - (INR c * s + (INR c - 1) * cg) / 2)
               (fun j => INR j * (s + rg) - (INR r * s + (INR r - 1) * rg) / 2)
               (fun i j => Nat.eqb i 0 && Nat.eqb j 0)).
    rewrite sumOver_affine, !length_seq.
    pose proof (sumOver_seq r) as Hr.
    replace (sumOver INR (seq 0 r)) with (INR r * (INR r - 1) / 2) by lra.
    field.
Qed.

(** C6. Every build yields columns x rows particles (3200 under the
    default settings), but the anchors are not symmetric about the origin:
    their coordinates sum to minus (columns x rows x dotSize / 2) on each
    axis, which is -6400 under the default settings. *)
Theorem C6_grid_count_and_anchor_sums :
  (forall c r s cg rg,
      length (buildGrid c r s cg rg) = (c * r)%nat /\
      sumAnchorX (buildGrid c r s cg rg) = - (INR c * INR r * (s / 2)) /\
      sumAnchorY (buildGrid c r s cg rg) = - (INR c * INR r * (s / 2))) /\
  length createEntities = (settings.columns * settings.rows)%nat /\
  length createEntities = 3200%nat /\
  sumAnchorX createEntities = -6400 /\
  sumAnchorY createEntities = -6400.
Proof.
  split.
  - intros c r s cg rg. split; [apply length_buildGrid | apply sumAnchor_buildGrid].
  - unfold createEntities.
    destruct (sumAnchor_buildGrid settings.columns settings.rows
                settings.dotSize settings.columnGap settings.rowGap) as [Hx Hy].
    rewrite Hx, Hy, length_buildGrid.
    assert (Hc : INR settings.columns = 80)
      by (unfold settings.columns; rewrite INR_IZR_INZ; reflexivity).
    assert (Hr : INR settings.rows = 40)
      by (unfold settings.rows; rewrite INR_IZR_INZ; reflexivity).
    rewrite Hc, Hr. unfold settings.dotSize.
    repeat split; lra.
Qed.

(** ** C3: mouse damping *)

Lemma dist_nonneg (a b : Vector) : 0 <= Vec.dist a b.
Proof. unfold Vec.dist. apply sqrt_pos. Qed.

Lemma sqrt_axis (x : R) : 0 <= x -> sqrt ((x - 0) * (x - 0) + (0 - 0) * (0 - 0)) = x.
Proof.
  intros Hx. replace ((x - 0) * (x - 0) + (0 - 0) * (0 - 0)) with (x * x) by ring.
  now apply sqrt_square.
Qed.

Lemma mag_mult_lt (v : Vector) (f : R) :
  v <> createVector 0 0 -> 0 <= f < 1 -> Vec.mag (Vec.mult v f) < Vec.mag v.
Proof.
  intros Hv [Hf0 Hf1]. destruct v as [a b]. unfold Vec.mag, Vec.mult. simpl.
  assert (Hpos : 0 < a * a + b * b).
  { destruct (Rle_lt_dec (a * a + b * b) 0) as [Hle | Hlt]; [| exact Hlt].
    exfalso. apply Hv. f_equal; nra. }
  assert (Hff : f * f < 1) by nra.
  assert (Hgap : 0 < (a * a + b * b) * (1 - f * f))
    by (apply Rmult_lt_0_compat; lra).
  apply sqrt_lt_1; nra.
Qed.

Lemma mouseDamping_far (m : Vector) (e : Entity) :
  30 < Vec.dist (position e) m -> Entity.applyMouseDamping m e = e.
Proof.
  intros H. unfold Entity.applyMouseDamping. cbv zeta.
  destruct (Rgt_dec _ 30) as [_ | Hn]; [reflexivity |].
  exfalso. apply Hn. exact H.
Qed.

Lemma mouseDamping_near (m : Vector) (e : Entity) :
  Vec.dist (position e) m <= 30 ->
  Entity.applyMouseDamping m e =
  {| position := position e;
     velocity := Vec.mult (velocity e)
                   (clamp (0.05 * Vec.dist (position e) m) 0 1);
     anchor := anchor e;
     debug := debug e |}.
Proof.
  intros H. unfold Entity.applyMouseDamping. cbv zeta.
  destruct (Rgt_dec _ 30) as [Hgt | _]; [exfalso; lra |].
  replace (0.05 * Vec.dist (position e) m + 0.0)
    with (0.05 * Vec.dist (position e) m) by lra.
  reflexivity.
Qed.

(** C3, as the code has it.  Beyond distance 30 the particle is returned
    as it is; up to 30 the velocity is multiplied by
    [clamp(0.05 * distance, 0, 1)]; and below distance 20 (strictly) a
    nonzero velocity becomes strictly shorter. *)
Theorem C3_mouse_damping (m : Vector) (e : Entity) :
  (30 < Vec.dist (position e) m -> Entity.applyMouseDamping m e = e) /\
  (Vec.dist (position e) m <= 30 ->
   velocity (Entity.applyMouseDamping m e)
   = Vec.mult (velocity e) (clamp (0.05 * Vec.dist (position e) m) 0 1)) /\
  (Vec.dist (position e) m < 20 ->
   velocity e <> createVector 0 0 ->
   Vec.mag (velocity (Entity.applyMouseDamping m e)) < Vec.mag (velocity e)).
Proof.
  split; [apply mouseDamping_far |]. split.
  - intros H. now rewrite mouseDamping_near.
  - intros Hd Hv. rewrite mouseDamping_near by lra. simpl.
    apply mag_mult_lt; [exact Hv |].
    pose proof (dist_nonneg (position e) m) as H0.
    rewrite clamp_inside; lra.
Qed.

Lemma dist_movingRight (x : R) :
  0 <= x -> Vec.dist (position movingRight) (createVector x 0) = x.
Proof. intros Hx. unfold Vec.dist. simpl. now apply sqrt_axis. Qed.

Lemma movingRight_nonzero : velocity movingRight <> createVector 0 0.
Proof. simpl. intros H. injection H as H. lra. Qed.

Lemma C3_witness :
  Entity.applyMouseDamping (createVector 40 0) movingRight = movingRight /\
  velocity (Entity.applyMouseDamping (createVector 25 0) movingRight)
  = Vec.mult (velocity movingRight)
      (clamp (0.05 * Vec.dist (position movingRight) (createVector 25 0)) 0 1) /\
  Vec.mag (velocity (Entity.applyMouseDamping (createVector 10 0) movingRight))
  < Vec.mag (velocity movingRight).
Proof.
  split; [| split].
  - apply (C3_mouse_damping (createVector 40 0) movingRight).
    rewrite dist_movingRight; lra.
  - apply (C3_mouse_damping (createVector 25 0) movingRight).
    rewrite dist_movingRight; lra.
  - apply (C3_mouse_damping (createVector 10 0) movingRight).
    + rewrite dist_movingRight; lra.
    + exact movingRight_nonzero.
Defined.

(** C3, as stated, fails at distance exactly 20: the factor is 1 and the
    nonzero velocity (1,0) is not decreased. *)
Lemma C3_counterexample :
  let m := createVector 20 0 in
  Vec.dist (position movingRight) m <= 20 /\
  velocity movingRight <> createVector 0 0 /\
  velocity (Entity.applyMouseDamping m movingRight) = velocity movingRight /\
  ~ (Vec.mag (velocity (Entity.applyMouseDamping m movingRight))
     < Vec.mag (velocity movingRight)).
Proof.
  cbv zeta.
  assert (Hd : Vec.dist (position movingRight) (createVector 20 0) = 20)
    by (apply dist_movingRight; lra).
  assert (Hv : velocity (Entity.applyMouseDamping (createVector 20 0) movingRight)
               = velocity movingRight).
  { rewrite mouseDamping_near by lra. rewrite Hd. simpl.
    rewrite clamp_inside by lra. unfold Vec.mult. simpl. f_equal; lra. }
  repeat split.
  - lra.
  - exact movingRight_nonzero.
  - exact Hv.
  - rewrite Hv. lra.
Qed.

(** ** C2: anchor damping *)

Lemma Rpower_small_base_decreasing (b y z : R) :
  0 < b < 1 -> y < z -> Rpower b z < Rpower b y.
Proof.
  intros [Hb0 Hb1] Hyz. unfold Rpower. apply exp_increasing.
  assert (Hln : ln b < 0) by (rewrite <- ln_1; now apply ln_increasing).
  nra.
Qed.

Lemma anchorDampingFactor_floor (d : R) :
  d <= 8 -> Entity.anchorDampingFactor d = 0.95 ^ 8.
Proof.
  intros Hd. unfold Entity.anchorDampingFactor. cbv zeta.
  rewrite Math_pow_pos by lra.
  rewrite Rmax_right by exact Hd.
  replace 8 with (INR 8) by (rewrite INR_IZR_INZ; reflexivity).
  apply Rpower_pow. lra.
Qed.

Lemma anchorDampingFactor_decreasing (d1 d2 : R) :
  8 <= d1 -> d1 < d2 ->
  Entity.anchorDampingFactor d2 < Entity.anchorDampingFactor d1.
Proof.
  intros H1 H2. unfold Entity.anchorDampingFactor. cbv zeta.
  rewrite !Math_pow_pos by lra.
  rewrite !Rmax_left by lra.
  apply Rpower_small_base_decreasing; lra.
Qed.

Lemma anchorDampingFactor_le_floor (d : R) :
  Entity.anchorDampingFactor d <= 0.95 ^ 8.
Proof.
  destruct (Rle_lt_dec d 8) as [Hle | Hlt].
  - rewrite anchorDampingFactor_floor by exact Hle. lra.
  - rewrite <- (anchorDampingFactor_floor 8) by lra.
    left. apply anchorDampingFactor_decreasing; lra.
Qed.

(** C2, evaluated on the code.  The factor is [0.95^8] up to distance 8,
    as the spec says; but from there on it strictly decreases as the distance
    grows, so [0.95^8] (less than 0.67) is its largest value and it never
    approaches 1: the damping is weakest at the anchor, not strongest. *)
Theorem C2_anchor_damping_factor :
  (forall d, d <= 8 -> Entity.anchorDampingFactor d = 0.95 ^ 8) /\
  (forall d1 d2, 8 <= d1 -> d1 < d2 ->
     Entity.anchorDampingFactor d2 < Entity.anchorDampingFactor d1) /\
  (forall d, Entity.anchorDampingFactor d <= 0.95 ^ 8) /\
  0.95 ^ 8 < 0.67 /\
  Entity.anchorDampingFactor 100 < Entity.anchorDampingFactor 0.
Proof.
  split; [exact anchorDampingFactor_floor |].
  split; [exact anchorDampingFactor_decreasing |].
  split; [exact anchorDampingFactor_le_floor |].
  split; [lra |].
  rewrite (anchorDampingFactor_floor 0) by lra.
  rewrite <- (anchorDampingFactor_floor 8) by lra.
  apply anchorDampingFactor_decreasing; lra.
Qed.

Lemma C2_witness :
  Entity.anchorDampingFactor 5 = 0.95 ^ 8 /\
  Entity.anchorDampingFactor 9 < Entity.anchorDampingFactor 8.
Proof.
  destruct C2_anchor_damping_factor as [Hfloor [Hdec _]].
  split.
  - apply (Hfloor 5). lra.
  - apply (Hdec 8 9); lra.
Defined.

(** ** C4: the two branches of the spring magnitude at 2.62 *)

Lemma INR_100 : INR 100 = 100.
Proof. rewrite INR_IZR_INZ. reflexivity. Qed.

Lemma INR_69 : INR 69 = 69.
Proof. rewrite INR_IZR_INZ. reflexivity. Qed.

Lemma Rpower_pos (b e : R) : 0 < Rpower b e.
Proof. unfold Rpower. apply exp_pos. Qed.

(** [1.7^(-0.69)] raised to the 100th power is [1 / 1.7^69]. *)
Lemma exp_branch_pow100 : Rpower 1.7 (-0.69) ^ 100 = / 1.7 ^ 69.
Proof.
  rewrite <- (Rpower_pow 100) by apply Rpower_pos.
  rewrite Rpower_mult, INR_100.
  replace (-0.69 * 100) with (- INR 69) by (rewrite INR_69; lra).
  rewrite Rpower_Ropp, Rpower_pow by lra.
  reflexivity.
Qed.

Lemma exp_branch_lower : 0.69 < Rpower 1.7 (-0.69).
Proof.
  destruct (Rlt_le_dec 0.69 (Rpower 1.7 (-0.69))) as [Hlt | Hle]; [exact Hlt |].
  exfalso.
  assert (Hpow : Rpower 1.7 (-0.69) ^ 100 <= 0.69 ^ 100).
  { apply pow_incr. split; [left; apply Rpower_pos | exact Hle]. }
  rewrite exp_branch_pow100 in Hpow.
  assert (Hp : 0 < 1.7 ^ 69) by (apply pow_lt; lra).
  assert (Hone : 1 <= 0.69 ^ 100 * 1.7 ^ 69).
  { replace 1 with (/ 1.7 ^ 69 * 1.7 ^ 69) by (apply Rinv_l; lra).
    apply Rmult_le_compat_r; [left; exact Hp | exact Hpow]. }
  assert (Hnum : 0.69 ^ 100 * 1.7 ^ 69 < 1) by lra.
  lra.
Qed.

Lemma exp_branch_upper : Rpower 1.7 (-0.69) < 0.70.
Proof.
  destruct (Rlt_le_dec (Rpower 1.7 (-0.69)) 0.70) as [Hlt | Hle]; [exact Hlt |].
  exfalso.
  assert (Hpow : 0.70 ^ 100 <= Rpower 1.7 (-0.69) ^ 100).
  { apply pow_incr. split; [lra | exact Hle]. }
  rewrite exp_branch_pow100 in Hpow.
  assert (Hp : 0 < 1.7 ^ 69) by (apply pow_lt; lra).
  assert (Hone : 0.70 ^ 100 * 1.7 ^ 69 <= 1).
  { replace 1 with (/ 1.7 ^ 69 * 1.7 ^ 69) by (apply Rinv_l; lra).
    apply Rmult_le_compat_r; [left; exact Hp | exact Hpow]. }
  assert (Hnum : 1 < 0.70 ^ 100 * 1.7 ^ 69) by lra.
  lra.
Qed.

Lemma elasticMagnitude_linear (d : R) :
  0 <= d <= 2.62 -> elasticMagnitude d = d.
Proof.
  intros [H0 H1]. unfold elasticMagnitude.
  destruct (Rle_dec d 2.62) as [_ | Hn]; [| exfalso; lra].
  now apply Rabs_pos_eq.
Qed.

Lemma elasticMagnitude_exponential (d : R) :
  2.62 < d -> elasticMagnitude d = Rpower 1.7 (0.5 * d - 2) + 2.
Proof.
  intros H. unfold elasticMagnitude. rewrite Math_pow_pos by lra.
  destruct (Rle_dec d 2.62) as [Hle | _]; [exfalso; lra | reflexivity].
Qed.

Lemma elasticMagnitude_jump (d : R) : 2.62 < d -> 2.69 < elasticMagnitude d.
Proof.
  intros H. rewrite elasticMagnitude_exponential by exact H.
  assert (Hlt : Rpower 1.7 (-0.69) < Rpower 1.7 (0.5 * d - 2))
    by (apply Rpower_lt; lra).
  pose proof exp_branch_lower. lra.
Qed.

(** The spring force on a particle at the origin whose anchor lies on the
    positive x axis at distance [d]. *)
Lemma calculateElasticity_axis (d : R) :
  0 < d -> elasticMagnitude d <= 20 -> 0 <= elasticMagnitude d ->
  calculateElasticity (createVector 0 0) (createVector d 0)
  = createVector (elasticMagnitude d) 0.
Proof.
  intros Hd Hhi Hlo. rewrite calculateElasticity_real. simpl.
  rewrite sqrt_axis by lra.
  destruct (Req_dec_T d 0) as [Hz | _]; [exfalso; lra |].
  unfold settings.maxEllasticForce.
  replace (elasticMagnitude d * ((d - 0) / d)) with (elasticMagnitude d)
    by (field; lra).
  replace (elasticMagnitude d * ((0 - 0) / d)) with 0 by (field; lra).
  rewrite !clamp_inside by lra. reflexivity.
Qed.

(** C4, evaluated on the code.  At 2.62 the linear branch gives 2.62 and
    the exponential branch gives a value between 2.69 and 2.70: the two
    differ by more than 0.07, and the magnitude jumps from 2.62 to above
    2.69 as soon as the distance exceeds 2.62. *)
Theorem C4_branches_differ_at_boundary :
  elasticMagnitude 2.62 = 2.62 /\
  2.69 < Math_pow 1.7 (0.5 * 2.62 - 2) + 2 < 2.70 /\
  0.07 < (Math_pow 1.7 (0.5 * 2.62 - 2) + 2) - elasticMagnitude 2.62 /\
  (forall d, 2.62 < d -> 2.69 < elasticMagnitude d) /\
  calculateElasticity (createVector 0 0) (createVector 2.62 0)
  = createVector 2.62 0 /\
  2.69 < vx (calculateElasticity (createVector 0 0) (createVector 2.63 0)).
Proof.
  assert (Hlin : elasticMagnitude 2.62 = 2.62)
    by (apply elasticMagnitude_linear; lra).
  assert (Hexp : 0.5 * 2.62 - 2 = -0.69) by lra.
  rewrite Math_pow_pos by lra. rewrite Hexp, Hlin.
  pose proof exp_branch_lower. pose proof exp_branch_upper.
  split; [reflexivity |]. split; [lra |]. split; [lra |].
  split; [exact elasticMagnitude_jump |]. split.
  - rewrite calculateElasticity_axis; rewrite ?Hlin; try lra. reflexivity.
  - pose proof (elasticMagnitude_jump 2.63 ltac:(lra)) as Hjump.
    assert (Hup : elasticMagnitude 2.63 < 3).
    { rewrite elasticMagnitude_exponential by lra.
      assert (Rpower 1.7 (0.5 * 2.63 - 2) < Rpower 1.7 0)
        by (apply Rpower_lt; lra).
      rewrite Rpower_O in *; lra. }
    rewrite calculateElasticity_axis by lra. simpl. exact Hjump.
Qed.

Lemma C4_witness : 2.69 < elasticMagnitude 3.
Proof.
  destruct C4_branches_differ_at_boundary as [_ [_ [_ [Hjump _]]]].
  apply (Hjump 3). lra.
Defined.

(** ** C1: gravity *)

Lemma dist_sqr (a b : Vector) :
  Vec.dist a b * Vec.dist a b
  = (vx b - vx a) * (vx b - vx a) + (vy b - vy a) * (vy b - vy a).
Proof. unfold Vec.dist. apply sqrt_sqrt. apply sumsq_nonneg. Qed.

Lemma gravityMagnitude_pos (d : R) : 0 < d -> 0 < gravityMagnitude d.
Proof.
  intros Hd. unfold gravityMagnitude. rewrite Math_pow_pos by exact Hd.
  pose proof (Rpower_pos d 1.05).
  apply Rdiv_lt_0_compat; lra.
Qed.

Lemma gravityMagnitude_decreasing (d1 d2 : R) :
  0 < d1 -> d1 < d2 -> gravityMagnitude d2 < gravityMagnitude d1.
Proof.
  intros H1 H2. unfold gravityMagnitude. rewrite !Math_pow_pos by lra.
  assert (Hp : Rpower d1 1.05 < Rpower d2 1.05)
    by (apply Rlt_Rpower_l; lra).
  pose proof (Rpower_pos d1 1.05) as Hp1.
  unfold Rdiv. apply Rmult_lt_compat_l; [lra |].
  apply Rinv_lt_contravar; [| exact Hp].
  apply Rmult_lt_0_compat; lra.
Qed.

Lemma gravityMagnitude_antitone (d1 d2 : R) :
  0 < d1 -> d1 <= d2 -> gravityMagnitude d2 <= gravityMagnitude d1.
Proof.
  intros H1 [Hlt | Heq].
  - left. now apply gravityMagnitude_decreasing.
  - subst. lra.
Qed.

Lemma jsMul_NaN_r (a : JsNum) : jsMul a NaN = NaN.
Proof. destruct a; reflexivity. Qed.

Lemma jsDiv_0_0 : jsDiv 0 0 = NaN.
Proof.
  unfold jsDiv.
  destruct (Req_dec_T 0 0) as [_ | Hn]; [reflexivity |].
  exfalso. apply Hn. reflexivity.
Qed.

(** The force between two distinct points, in closed form. *)
Lemma calculateGravity_formula (a b : Vector) :
  a <> b ->
  calculateGravity a b
  = createVector
      (clamp (gravityMagnitude (Vec.dist a b)
              * ((vx b - vx a) / Vec.dist a b))
         (- settings.maxGravForce) settings.maxGravForce)
      (clamp (gravityMagnitude (Vec.dist a b)
              * ((vy b - vy a) / Vec.dist a b))
         (- settings.maxGravForce) settings.maxGravForce).
Proof.
  intros Hne. pose proof (dist_pos a b Hne) as Hd.
  unfold calculateGravity. cbv zeta. fold (Vec.dist a b).
  assert (HP : Math_pow (Vec.dist a b) 1.05 <> 0).
  { rewrite Math_pow_pos by exact Hd.
    pose proof (Rpower_pos (Vec.dist a b) 1.05). lra. }
  rewrite (jsDiv_num _ _ HP), !(jsDiv_num _ (Vec.dist a b)) by lra.
  cbn [jsMul clampJs p_createVector].
  unfold gravityMagnitude.
  replace (1000 * 1 * 1) with 1000 by lra. reflexivity.
Qed.

(** The force between a point and itself: both products are NaN, and the
    vector built from them is (0,0). *)
Lemma calculateGravity_self (a : Vector) :
  calculateGravity a a = createVector 0 0.
Proof.
  unfold calculateGravity. cbv zeta.
  rewrite !Rminus_diag, Rmult_0_l, Rplus_0_l, sqrt_0, jsDiv_0_0.
  rewrite jsMul_NaN_r. reflexivity.
Qed.

Lemma direction_is_unit (a b : Vector) :
  a <> b ->
  isUnit (createVector ((vx b - vx a) / Vec.dist a b)
                       ((vy b - vy a) / Vec.dist a b)).
Proof.
  intros Hne. pose proof (dist_pos a b Hne) as Hd.
  pose proof (dist_sqr a b) as Hsq.
  unfold isUnit. simpl.
  replace ((vx b - vx a) / Vec.dist a b * ((vx b - vx a) / Vec.dist a b)
           + (vy b - vy a) / Vec.dist a b * ((vy b - vy a) / Vec.dist a b))
    with (((vx b - vx a) * (vx b - vx a) + (vy b - vy a) * (vy b - vy a))
          / (Vec.dist a b * Vec.dist a b)) by (field; lra).
  rewrite <- Hsq. field. lra.
Qed.

Lemma dist_pointAt (a u : Vector) (d : R) :
  isUnit u -> 0 <= d -> Vec.dist a (pointAt a u d) = d.
Proof.
  intros Hu Hd. unfold Vec.dist, pointAt, isUnit in *. simpl.
  replace ((vx a + d * vx u - vx a) * (vx a + d * vx u - vx a)
           + (vy a + d * vy u - vy a) * (vy a + d * vy u - vy a))
    with (d * d * (vx u * vx u + vy u * vy u)) by ring.
  rewrite Hu, Rmult_1_r. now apply sqrt_square.
Qed.

Lemma pointAt_distinct (a u : Vector) (d : R) :
  isUnit u -> 0 < d -> a <> pointAt a u d.
Proof.
  intros Hu Hd Heq.
  pose proof (dist_pointAt a u d Hu (Rlt_le _ _ Hd)) as Hdist.
  rewrite <- Heq, dist_self in Hdist. lra.
Qed.

(** Along the direction [u] the force is the clamped multiple of [u]. *)
Lemma calculateGravity_along (a u : Vector) (d : R) :
  isUnit u -> 0 < d ->
  calculateGravity a (pointAt a u d)
  = createVector
      (clamp (gravityMagnitude d * vx u)
         (- settings.maxGravForce) settings.maxGravForce)
      (clamp (gravityMagnitude d * vy u)
         (- settings.maxGravForce) settings.maxGravForce).
Proof.
  intros Hu Hd.
  rewrite calculateGravity_formula by now apply pointAt_distinct.
  rewrite dist_pointAt by (try exact Hu; lra).
  unfold pointAt. simpl.
  replace ((vx a + d * vx u - vx a) / d) with (vx u) by (field; lra).
  replace ((vy a + d * vy u - vy a) / d) with (vy u) by (field; lra).
  reflexivity.
Qed.

Lemma clamped_component_antitone (F1 F2 c m : R) :
  0 <= m -> 0 <= F2 <= F1 ->
  Rabs (clamp (F2 * c) (- m) m) <= Rabs (clamp (F1 * c) (- m) m).
Proof.
  intros Hm [H0 H12]. rewrite !clamp_sym_abs by lra.
  apply Rle_min_compat_r. rewrite !Rabs_mult, !(Rabs_pos_eq F1), !(Rabs_pos_eq F2) by lra.
  apply Rmult_le_compat_r; [apply Rabs_pos | exact H12].
Qed.

Lemma clamped_component_signed (F1 F2 c m : R) :
  0 <= m -> 0 <= F2 <= F1 ->
  (0 <= c -> clamp (F2 * c) (- m) m <= clamp (F1 * c) (- m) m) /\
  (c <= 0 -> clamp (F1 * c) (- m) m <= clamp (F2 * c) (- m) m).
Proof.
  intros Hm [H0 H12]. split; intros Hc; apply clamp_mono; nra.
Qed.

Lemma gravityMagnitude_100 : gravityMagnitude 100 <= 10.
Proof.
  unfold gravityMagnitude. rewrite Math_pow_pos by lra.
  assert (Hle : Rpower 100 1 <= Rpower 100 1.05) by (apply Rle_Rpower; lra).
  rewrite Rpower_1 in Hle by lra.
  apply Rmult_le_reg_r with (Rpower 100 1.05); [lra |].
  replace (1000 / Rpower 100 1.05 * Rpower 100 1.05) with 1000 by (field; lra).
  lra.
Qed.

(** C1, as the code has it.  For distinct points [a] and [b], with [d]
    their distance, [calculateGravity a b] is the vector [1000 / d^1.05]
    times the unit vector from [a] to [b], each component clamped to
    [[-12, 12]].  Along a fixed direction the magnitude before clamping
    strictly decreases with the distance, and each clamped component
    decreases in absolute value, not strictly: a component along a
    non-negative coordinate of the direction never grows, one along a
    non-positive coordinate never falls. *)
Theorem C1_gravity_law :
  (forall a b, a <> b ->
     0 < Vec.dist a b /\
     isUnit (createVector ((vx b - vx a) / Vec.dist a b)
                          ((vy b - vy a) / Vec.dist a b)) /\
     vx (calculateGravity a b)
     = clamp (1000 / Math_pow (Vec.dist a b) 1.05
              * ((vx b - vx a) / Vec.dist a b))
         (- settings.maxGravForce) settings.maxGravForce /\
     vy (calculateGravity a b)
     = clamp (1000 / Math_pow (Vec.dist a b) 1.05
              * ((vy b - vy a) / Vec.dist a b))
         (- settings.maxGravForce) settings.maxGravForce /\
     - settings.maxGravForce <= vx (calculateGravity a b)
       <= settings.maxGravForce /\
     - settings.maxGravForce <= vy (calculateGravity a b)
       <= settings.maxGravForce) /\
  (forall a u d1 d2, isUnit u -> 0 < d1 -> d1 <= d2 ->
     let f1 := calculateGravity a (pointAt a u d1) in
     let f2 := calculateGravity a (pointAt a u d2) in
     1000 / Math_pow d2 1.05 <= 1000 / Math_pow d1 1.05 /\
     (d1 < d2 -> 1000 / Math_pow d2 1.05 < 1000 / Math_pow d1 1.05) /\
     Rabs (vx f2) <= Rabs (vx f1) /\
     Rabs (vy f2) <= Rabs (vy f1) /\
     (0 <= vx u -> vx f2 <= vx f1) /\
     (vx u <= 0 -> vx f1 <= vx f2) /\
     (0 <= vy u -> vy f2 <= vy f1) /\
     (vy u <= 0 -> vy f1 <= vy f2)).
Proof.
  split.
  - intros a b Hne. split; [now apply dist_pos |].
    split; [now apply direction_is_unit |].
    rewrite calculateGravity_formula by exact Hne.
    simpl. unfold settings.maxGravForce.
    repeat split; try reflexivity; apply clamp_bounds; lra.
  - intros a u d1 d2 Hu H1 H12. cbv zeta.
    split; [now apply gravityMagnitude_antitone |].
    split; [intros Hlt; now apply gravityMagnitude_decreasing |].
    rewrite !calculateGravity_along by (try exact Hu; lra).
    assert (H2 : 0 < d2) by lra.
    pose proof (gravityMagnitude_pos d2 H2).
    pose proof (gravityMagnitude_antitone d1 d2 H1 H12).
    simpl. unfold settings.maxGravForce.
    split; [apply clamped_component_antitone; lra |].
    split; [apply clamped_component_antitone; lra |].
    split; [apply clamped_component_signed; lra |].
    split; [apply clamped_component_signed; lra |].
    split; apply clamped_component_signed; lra.
Qed.

Lemma C1_witness :
  0 < Vec.dist (createVector 0 0) (createVector 3 4) /\
  Rabs (vx (calculateGravity (createVector 0 0)
              (pointAt (createVector 0 0) (createVector (-1) 0) 200)))
  <= Rabs (vx (calculateGravity (createVector 0 0)
                 (pointAt (createVector 0 0) (createVector (-1) 0) 100))).
Proof.
  destruct C1_gravity_law as [Hlaw Hmono].
  split.
  - apply (Hlaw (createVector 0 0) (createVector 3 4)).
    intros H. injection H as H3 H4. lra.
  - apply (Hmono (createVector 0 0) (createVector (-1) 0) 100 200).
    + unfold isUnit. simpl. lra.
    + lra.
    + lra.
Defined.

(** C1, as stated, fails along the direction (-1, 0): between the
    distances 100 and 200 the clamped x component is not saturated and
    rises (from about -7.9 to about -3.8) instead of decreasing. *)
Lemma C1_counterexample :
  let a := createVector 0 0 in
  let u := createVector (-1) 0 in
  isUnit u /\
  Vec.dist a (pointAt a u 100) < Vec.dist a (pointAt a u 200) /\
  vx (calculateGravity a (pointAt a u 100))
  < vx (calculateGravity a (pointAt a u 200)).
Proof.
  cbv zeta.
  assert (Hu : isUnit (createVector (-1) 0)) by (unfold isUnit; simpl; lra).
  split; [exact Hu |]. split.
  - rewrite !dist_pointAt by (try exact Hu; lra). lra.
  - rewrite !calculateGravity_along by (try exact Hu; lra).
    simpl. unfold settings.maxGravForce.
    pose proof gravityMagnitude_100 as H100.
    pose proof (gravityMagnitude_pos 200 ltac:(lra)) as H200.
    pose proof (gravityMagnitude_decreasing 100 200 ltac:(lra) ltac:(lra)) as Hdec.
    rewrite !clamp_inside by lra. lra.
Qed.


(** * Further properties of the sketch *)

(** ** More on clamping *)

Lemma clamp_opp (v m : R) : 0 <= m -> clamp (- v) (- m) m = - clamp v (- m) m.
Proof. intros Hm. unfold clamp. split_cmp; lra. Qed.

Lemma clamp_above (v lo hi : R) : lo <= hi -> hi <= v -> clamp v lo hi = hi.
Proof. intros H1 H2. unfold clamp. split_cmp; lra. Qed.

Lemma clamp_sameSign (v m : R) : 0 < m -> sameSign v (clamp v (- m) m).
Proof. intros Hm. unfold sameSign, clamp. split_cmp; repeat split; intros; lra. Qed.

Lemma clamp_abs_le (v m : R) : 0 <= m -> Rabs (clamp v (- m) m) <= m.
Proof. intros Hm. rewrite clamp_sym_abs by exact Hm. apply Rmin_r. Qed.

(** ** The spring force *)

Lemma dist_sym (a b : Vector) : Vec.dist a b = Vec.dist b a.
Proof. unfold Vec.dist. f_equal. ring. Qed.

Lemma abs_le_sqrt_sumsq (x y : R) : Rabs x <= sqrt (x * x + y * y).
Proof.
  rewrite <- sqrt_Rsqr_abs. unfold Rsqr.
  apply sqrt_le_1; nra.
Qed.

Lemma abs_dx_le_dist (a b : Vector) : Rabs (vx b - vx a) <= Vec.dist a b.
Proof. unfold Vec.dist. apply abs_le_sqrt_sumsq. Qed.

Lemma abs_dy_le_dist (a b : Vector) : Rabs (vy b - vy a) <= Vec.dist a b.
Proof.
  unfold Vec.dist. rewrite Rplus_comm. apply abs_le_sqrt_sumsq.
Qed.

Lemma calculateElasticity_formula (a b : Vector) :
  a <> b ->
  calculateElasticity a b
  = createVector
      (clamp (elasticMagnitude (Vec.dist a b) * ((vx b - vx a) / Vec.dist a b))
         (- settings.maxEllasticForce) settings.maxEllasticForce)
      (clamp (elasticMagnitude (Vec.dist a b) * ((vy b - vy a) / Vec.dist a b))
         (- settings.maxEllasticForce) settings.maxEllasticForce).
Proof.
  intros Hne. pose proof (dist_pos a b Hne) as Hd.
  rewrite calculateElasticity_real. fold (Vec.dist a b).
  destruct (Req_dec_T (Vec.dist a b) 0) as [Hz | _]; [exfalso; lra |].
  reflexivity.
Qed.

Lemma elasticMagnitude_pos (d : R) : 0 < d -> 0 < elasticMagnitude d.
Proof.
  intros Hd. destruct (Rle_lt_dec d 2.62) as [Hle | Hgt].
  - rewrite elasticMagnitude_linear; lra.
  - pose proof (elasticMagnitude_jump d Hgt). lra.
Qed.

(** Every component of the spring force lies in [[-20, 20]], whatever the
    two points. *)
Theorem elasticity_components_bounded (a b : Vector) :
  - settings.maxEllasticForce <= vx (calculateElasticity a b)
    <= settings.maxEllasticForce /\
  - settings.maxEllasticForce <= vy (calculateElasticity a b)
    <= settings.maxEllasticForce.
Proof.
  rewrite calculateElasticity_real. simpl. unfold settings.maxEllasticForce.
  split; apply clamp_bounds; lra.
Qed.

(** The spring force is antisymmetric: swapping the two points negates
    it. *)
Theorem elasticity_antisymmetric (a b : Vector) :
  calculateElasticity b a = negate (calculateElasticity a b).
Proof.
  destruct a as [ax ay], b as [bx by_].
  rewrite !calculateElasticity_real. unfold negate. simpl.
  replace ((ax - bx) * (ax - bx) + (ay - by_) * (ay - by_))
    with ((bx - ax) * (bx - ax) + (by_ - ay) * (by_ - ay)) by ring.
  set (D := sqrt ((bx - ax) * (bx - ax) + (by_ - ay) * (by_ - ay))).
  unfold settings.maxEllasticForce.
  destruct (Req_dec_T D 0) as [Hz | Hnz].
  - rewrite !Rmult_0_r. rewrite !clamp_inside by lra. f_equal; lra.
  - rewrite <- !clamp_opp by lra. f_equal; f_equal; field; exact Hnz.
Qed.

Lemma calculateElasticity_linear (a b : Vector) :
  Vec.dist a b <= 2.62 ->
  calculateElasticity a b = createVector (vx b - vx a) (vy b - vy a).
Proof.
  intros Hd.
  pose proof (dist_nonneg a b) as H0.
  pose proof (abs_dx_le_dist a b) as Hx. pose proof (abs_dy_le_dist a b) as Hy.
  assert (Hxb : - 20 <= vx b - vx a <= 20)
    by (unfold Rabs in Hx; destruct (Rcase_abs (vx b - vx a)); lra).
  assert (Hyb : - 20 <= vy b - vy a <= 20)
    by (unfold Rabs in Hy; destruct (Rcase_abs (vy b - vy a)); lra).
  rewrite calculateElasticity_real. fold (Vec.dist a b).
  unfold settings.maxEllasticForce.
  destruct (Req_dec_T (Vec.dist a b) 0) as [Hz | Hnz].
  - rewrite Hz in Hx, Hy.
    assert (vx b - vx a = 0)
      by (unfold Rabs in Hx; destruct (Rcase_abs (vx b - vx a)); lra).
    assert (vy b - vy a = 0)
      by (unfold Rabs in Hy; destruct (Rcase_abs (vy b - vy a)); lra).
    rewrite !Rmult_0_r, !clamp_inside by lra. f_equal; lra.
  - rewrite elasticMagnitude_linear by lra.
    replace (Vec.dist a b * ((vx b - vx a) / Vec.dist a b)) with (vx b - vx a)
      by (field; exact Hnz).
    replace (Vec.dist a b * ((vy b - vy a) / Vec.dist a b)) with (vy b - vy a)
      by (field; exact Hnz).
    rewrite !clamp_inside by lra. reflexivity.
Qed.

(** Within distance 2.62 the spring force is exactly the displacement
    from the first point to the second. *)
Theorem elasticity_linear_regime (a b : Vector) :
  Vec.dist a b <= 2.62 ->
  calculateElasticity a b = createVector (vx b - vx a) (vy b - vy a).
Proof. apply calculateElasticity_linear. Qed.

Lemma elasticity_linear_regime_witness :
  calculateElasticity (createVector 0 0) (createVector 2 0)
  = createVector (2 - 0) (0 - 0).
Proof.
  apply (elasticity_linear_regime (createVector 0 0) (createVector 2 0)).
  unfold Vec.dist. simpl. rewrite sqrt_axis; lra.
Defined.

(** Before clamping, the spring magnitude strictly increases with the
    distance. *)
Theorem elasticMagnitude_increasing (d1 d2 : R) :
  0 <= d1 -> d1 < d2 -> elasticMagnitude d1 < elasticMagnitude d2.
Proof.
  intros H0 Hlt.
  destruct (Rle_lt_dec d2 2.62) as [H2 | H2].
  - rewrite !elasticMagnitude_linear; lra.
  - destruct (Rle_lt_dec d1 2.62) as [H1 | H1].
    + rewrite (elasticMagnitude_linear d1) by lra.
      pose proof (elasticMagnitude_jump d2 H2). lra.
    + rewrite !elasticMagnitude_exponential by lra.
      assert (Rpower 1.7 (0.5 * d1 - 2) < Rpower 1.7 (0.5 * d2 - 2))
        by (apply Rpower_lt; lra).
      lra.
Qed.

Lemma elasticMagnitude_increasing_witness :
  elasticMagnitude 1 < elasticMagnitude 5.
Proof. apply (elasticMagnitude_increasing 1 5); lra. Defined.

Lemma calculateElasticity_along (a u : Vector) (d : R) :
  isUnit u -> 0 < d ->
  calculateElasticity a (pointAt a u d)
  = createVector
      (clamp (elasticMagnitude d * vx u)
         (- settings.maxEllasticForce) settings.maxEllasticForce)
      (clamp (elasticMagnitude d * vy u)
         (- settings.maxEllasticForce) settings.maxEllasticForce).
Proof.
  intros Hu Hd.
  rewrite calculateElasticity_formula by now apply pointAt_distinct.
  rewrite dist_pointAt by (try exact Hu; lra).
  unfold pointAt. simpl.
  replace ((vx a + d * vx u - vx a) / d) with (vx u) by (field; lra).
  replace ((vy a + d * vy u - vy a) / d) with (vy u) by (field; lra).
  reflexivity.
Qed.

Lemma INR_6 : INR 6 = 6.
Proof. rewrite INR_IZR_INZ. reflexivity. Qed.

Lemma elasticMagnitude_far (d : R) : 16 <= d -> 26 < elasticMagnitude d.
Proof.
  intros Hd. rewrite elasticMagnitude_exponential by lra.
  assert (Hle : Rpower 1.7 6 <= Rpower 1.7 (0.5 * d - 2))
    by (apply Rle_Rpower; lra).
  rewrite <- INR_6, Rpower_pow in Hle by lra.
  lra.
Qed.

(** From distance 16 on, the spring force is saturated: a component along
    which the direction to the anchor has at least 0.8 of its length is
    exactly the maximum 20. *)
Theorem elasticity_saturates (a u : Vector) (d : R) :
  isUnit u -> 16 <= d -> 0.8 <= vx u ->
  vx (calculateElasticity a (pointAt a u d)) = settings.maxEllasticForce.
Proof.
  intros Hu Hd Hux.
  rewrite calculateElasticity_along by (try exact Hu; lra). simpl.
  pose proof (elasticMagnitude_far d Hd) as Hm.
  unfold settings.maxEllasticForce.
  apply clamp_above; nra.
Qed.

Lemma elasticity_saturates_witness :
  vx (calculateElasticity (createVector 0 0)
        (pointAt (createVector 0 0) (createVector 1 0) 30))
  = settings.maxEllasticForce.
Proof.
  apply (elasticity_saturates (createVector 0 0) (createVector 1 0) 30).
  - unfold isUnit. simpl. lra.
  - lra.
  - simpl. lra.
Defined.

Lemma calculateElasticity_self (a : Vector) :
  calculateElasticity a a = createVector 0 0.
Proof.
  rewrite calculateElasticity_linear by (rewrite dist_self; lra).
  now rewrite !Rminus_diag.
Qed.

(** The spring force pulls toward the second point: each component has
    the sign of the corresponding coordinate difference. *)
Theorem elasticity_points_to_anchor (a b : Vector) :
  sameSign (vx b - vx a) (vx (calculateElasticity a b)) /\
  sameSign (vy b - vy a) (vy (calculateElasticity a b)).
Proof.
  assert (Hscale : forall M D x, 0 < M -> 0 < D -> sameSign x (M * (x / D))).
  { intros M D x HM HD.
    assert (HMD : 0 < M / D) by (apply Rdiv_lt_0_compat; lra).
    replace (M * (x / D)) with (M / D * x) by (field; lra).
    unfold sameSign. repeat split; intros; nra. }
  assert (Htrans : forall x y z, sameSign x y -> sameSign y z -> sameSign x z).
  { unfold sameSign. intros x y z [H1 [H2 H3]] [H4 [H5 H6]]. repeat split; auto. }
  destruct (Req_dec_T (Vec.dist a b) 0) as [Hz | Hnz].
  - assert (Hab : a = b).
    { destruct (sqrt_sumsq_zero _ _ Hz) as [Hx Hy].
      destruct a, b; simpl in *. f_equal; lra. }
    subst b. rewrite calculateElasticity_self. simpl.
    rewrite !Rminus_diag. unfold sameSign. repeat split; intros; lra.
  - assert (Hne : a <> b) by (intros ->; apply Hnz; apply dist_self).
    pose proof (dist_pos a b Hne) as Hd.
    pose proof (elasticMagnitude_pos _ Hd) as Hm.
    rewrite calculateElasticity_formula by exact Hne. simpl.
    unfold settings.maxEllasticForce.
    split; (eapply Htrans; [apply Hscale; [exact Hm | exact Hd] | apply clamp_sameSign; lra]).
Qed.

(** ** The gravity force *)

Lemma dist_zero_eq (a b : Vector) : Vec.dist a b = 0 -> a = b.
Proof.
  intros Hz. destruct (sqrt_sumsq_zero _ _ Hz) as [Hx Hy].
  destruct a, b; simpl in *. f_equal; lra.
Qed.

(** Gravity is antisymmetric for all points: swapping the two points
    negates the force.  Between a point and itself the direction is
    [0 / 0], the products are NaN, and the force is the vector (0,0). *)
Theorem gravity_antisymmetric (a b : Vector) :
  calculateGravity b a = negate (calculateGravity a b) /\
  calculateGravity a a = createVector 0 0.
Proof.
  split; [| apply calculateGravity_self].
  destruct (Req_dec_T (Vec.dist a b) 0) as [Hz | Hnz].
  - apply dist_zero_eq in Hz. subst b. rewrite calculateGravity_self.
    unfold negate. simpl. f_equal; lra.
  - assert (Hne : a <> b) by (intros ->; apply Hnz; apply dist_self).
    assert (Hne' : b <> a) by (intros Heq; apply Hne; now symmetry).
    pose proof (dist_pos a b Hne) as Hd.
    rewrite (calculateGravity_formula a b Hne), (calculateGravity_formula b a Hne').
    rewrite (dist_sym b a). unfold negate. simpl. unfold settings.maxGravForce.
    rewrite <- !clamp_opp by lra.
    f_equal; f_equal; field; lra.
Qed.

(** Both forces depend on the difference of the two points only: moving
    both points by the same vector changes neither. *)
Theorem forces_translation_invariant (a b t : Vector) :
  calculateGravity (Vec.add a t) (Vec.add b t) = calculateGravity a b /\
  calculateElasticity (Vec.add a t) (Vec.add b t) = calculateElasticity a b.
Proof.
  unfold calculateGravity, calculateElasticity, elasticityComponents, Vec.add.
  cbv zeta. cbn [vx vy].
  replace (vx b + vx t - (vx a + vx t)) with (vx b - vx a) by ring.
  replace (vy b + vy t - (vy a + vy t)) with (vy b - vy a) by ring.
  split; reflexivity.
Qed.

(** Gravity pulls toward the second point: each component of the force
    has the sign of the corresponding coordinate difference (and is 0
    between a point and itself). *)
Theorem gravity_points_to_pointer (a b : Vector) :
  sameSign (vx b - vx a) (vx (calculateGravity a b)) /\
  sameSign (vy b - vy a) (vy (calculateGravity a b)).
Proof.
  destruct (Req_dec_T (Vec.dist a b) 0) as [Hz | Hnz].
  { apply dist_zero_eq in Hz. subst b. rewrite calculateGravity_self. simpl.
    rewrite !Rminus_diag. unfold sameSign. repeat split; intros; lra. }
  assert (Hne : a <> b) by (intros ->; apply Hnz; apply dist_self).
  pose proof (dist_pos a b Hne) as Hd.
  pose proof (gravityMagnitude_pos (Vec.dist a b) Hd) as Hm.
  assert (Hscale : forall x,
             sameSign x (clamp (gravityMagnitude (Vec.dist a b) * (x / Vec.dist a b))
                           (- settings.maxGravForce) settings.maxGravForce)).
  { intros x.
    assert (HMD : 0 < gravityMagnitude (Vec.dist a b) / Vec.dist a b)
      by (apply Rdiv_lt_0_compat; lra).
    replace (gravityMagnitude (Vec.dist a b) * (x / Vec.dist a b))
      with (gravityMagnitude (Vec.dist a b) / Vec.dist a b * x) by (field; lra).
    unfold settings.maxGravForce.
    pose proof (clamp_sameSign
                  (gravityMagnitude (Vec.dist a b) / Vec.dist a b * x) 12
                  ltac:(lra)) as [H1 [H2 H3]].
    unfold sameSign. repeat split; intros Hx.
    - apply H1. nra.
    - apply H2. nra.
    - apply H3. nra. }
  rewrite calculateGravity_formula by exact Hne.
  simpl. split; apply Hscale.
Qed.

Lemma INR_20 : INR 20 = 20.
Proof. rewrite INR_IZR_INZ. reflexivity. Qed.

(** [60^1.05 <= 75]: the twentieth root of 60 is at most 1.25. *)
Lemma pow_60_bound : Rpower 60 1.05 <= 75.
Proof.
  replace 1.05 with (1 + 0.05) by lra.
  rewrite Rpower_plus, Rpower_1 by lra.
  assert (Hroot : Rpower 60 0.05 <= 1.25).
  { destruct (Rle_lt_dec (Rpower 60 0.05) 1.25) as [Hle | Hgt]; [exact Hle |].
    exfalso.
    assert (Hpow : 1.25 ^ 20 <= Rpower 60 0.05 ^ 20)
      by (apply pow_incr; lra).
    rewrite <- (Rpower_pow 20 (Rpower 60 0.05)) in Hpow by apply Rpower_pos.
    rewrite Rpower_mult, INR_20 in Hpow.
    replace (0.05 * 20) with 1 in Hpow by lra.
    rewrite Rpower_1 in Hpow by lra.
    assert (60 < 1.25 ^ 20) by lra.
    lra. }
  lra.
Qed.

Lemma gravityMagnitude_near (d : R) : 0 < d -> d <= 60 -> 40 / 3 <= gravityMagnitude d.
Proof.
  intros H0 H60.
  pose proof (gravityMagnitude_antitone d 60 H0 H60) as Hanti.
  assert (H75 : 40 / 3 <= gravityMagnitude 60).
  { unfold gravityMagnitude. rewrite Math_pow_pos by lra.
    pose proof pow_60_bound as Hb. pose proof (Rpower_pos 60 1.05) as Hp.
    apply Rmult_le_reg_r with (Rpower 60 1.05); [exact Hp |].
    replace (1000 / Rpower 60 1.05 * Rpower 60 1.05) with 1000 by (field; lra).
    lra. }
  lra.
Qed.

(** Within distance 60 of the pointer the pull is saturated: a component
    along which the direction to the pointer has at least 0.9 of its
    length is exactly the maximum 12. *)
Theorem gravity_saturates (a u : Vector) (d : R) :
  isUnit u -> 0 < d -> d <= 60 -> 0.9 <= vx u ->
  vx (calculateGravity a (pointAt a u d)) = settings.maxGravForce.
Proof.
  intros Hu H0 H60 Hux.
  rewrite calculateGravity_along by assumption.
  simpl. pose proof (gravityMagnitude_near d H0 H60) as Hm.
  unfold settings.maxGravForce. apply clamp_above; nra.
Qed.

Lemma gravity_saturates_witness :
  vx (calculateGravity (createVector 0 0)
        (pointAt (createVector 0 0) (createVector 1 0) 50))
  = settings.maxGravForce.
Proof.
  apply (gravity_saturates (createVector 0 0) (createVector 1 0) 50).
  - unfold isUnit. simpl. lra.
  - lra.
  - lra.
  - simpl. lra.
Defined.

(** ** Damping *)

Lemma mag_mult (v : Vector) (f : R) :
  0 <= f -> Vec.mag (Vec.mult v f) = f * Vec.mag v.
Proof.
  intros Hf. destruct v as [a b]. unfold Vec.mag, Vec.mult. simpl.
  replace (a * f * (a * f) + b * f * (b * f)) with (f * f * (a * a + b * b)) by ring.
  rewrite sqrt_mult; [| nra | apply sumsq_nonneg].
  now rewrite sqrt_square.
Qed.

Lemma mag_nonneg (v : Vector) : 0 <= Vec.mag v.
Proof. unfold Vec.mag. apply sqrt_pos. Qed.

Lemma anchorDampingFactor_range (d : R) :
  0 < Entity.anchorDampingFactor d <= 0.67.
Proof.
  split.
  - unfold Entity.anchorDampingFactor. cbv zeta.
    rewrite Math_pow_pos by lra. apply Rpower_pos.
  - pose proof (anchorDampingFactor_le_floor d). lra.
Qed.

Lemma mouseDampingFactor_range (d : R) : 0 <= clamp (0.05 * d) 0 1 <= 1.
Proof. apply clamp_bounds. lra. Qed.

(** Anchor damping takes away at least a third of the speed, wherever the
    particle is, and moves nothing: the position is kept and no velocity
    component changes sign. *)
Theorem anchorDamping_shrinks_velocity (e : Entity) :
  position (Entity.applyAnchorDamping e) = position e /\
  Vec.mag (velocity (Entity.applyAnchorDamping e)) <= 0.67 * Vec.mag (velocity e) /\
  sameSign (vx (velocity e)) (vx (velocity (Entity.applyAnchorDamping e))) /\
  sameSign (vy (velocity e)) (vy (velocity (Entity.applyAnchorDamping e))).
Proof.
  unfold Entity.applyAnchorDamping. cbv zeta. simpl.
  pose proof (anchorDampingFactor_range (Vec.dist (position e) (anchor e)))
    as [Hpos Hle].
  pose proof (mag_nonneg (velocity e)) as Hm.
  split; [reflexivity |]. split.
  - rewrite mag_mult by lra. nra.
  - unfold sameSign. repeat split; intros; nra.
Qed.

(** Mouse damping never makes a particle faster. *)
Theorem mouseDamping_never_speeds_up (m : Vector) (e : Entity) :
  Vec.mag (velocity (Entity.applyMouseDamping m e)) <= Vec.mag (velocity e).
Proof.
  destruct (Rle_lt_dec (Vec.dist (position e) m) 30) as [Hle | Hgt].
  - rewrite mouseDamping_near by exact Hle. simpl.
    pose proof (mouseDampingFactor_range (Vec.dist (position e) m)) as [H0 H1].
    pose proof (mag_nonneg (velocity e)).
    rewrite mag_mult by exact H0. nra.
  - rewrite mouseDamping_far by exact Hgt. lra.
Qed.

(** A particle exactly under the pointer is stopped. *)
Theorem mouseDamping_stops_at_pointer (e : Entity) :
  velocity (Entity.applyMouseDamping (position e) e) = createVector 0 0.
Proof.
  rewrite mouseDamping_near by (rewrite dist_self; lra).
  rewrite dist_self. simpl. rewrite clamp_inside by lra.
  unfold Vec.mult. f_equal; lra.
Qed.

(** From distance 20 on, mouse damping returns the particle as it is. *)
Theorem mouseDamping_identity_from_20 (m : Vector) (e : Entity) :
  20 <= Vec.dist (position e) m -> Entity.applyMouseDamping m e = e.
Proof.
  intros H20.
  destruct (Rle_lt_dec (Vec.dist (position e) m) 30) as [Hle | Hgt].
  - rewrite mouseDamping_near by exact Hle.
    replace (clamp (0.05 * Vec.dist (position e) m) 0 1) with 1
      by (symmetry; apply clamp_above; lra).
    destruct e as [[px py] [wx wy] an dbg]. unfold Vec.mult. simpl.
    f_equal. f_equal; lra.
  - now apply mouseDamping_far.
Qed.

Lemma mouseDamping_identity_from_20_witness :
  Entity.applyMouseDamping (createVector 25 0) movingRight = movingRight.
Proof.
  apply (mouseDamping_identity_from_20 (createVector 25 0) movingRight).
  rewrite dist_movingRight; lra.
Defined.

(** ** Frames *)

Lemma drawEntity_atRest (p : Host) (e : Entity) :
  mouseX p = 0 \/ mouseY p = 0 ->
  atRest e ->
  drawEntity p e
  = (e, ellipse (vx (anchor e)) (vy (anchor e))
          settings.dotSize settings.dotSize).
Proof.
  intros Hp [Hpos Hvel]. apply mousePosition_None in Hp.
  unfold drawEntity. cbv zeta. rewrite Hp.
  destruct e as [pos vel an dbg]. simpl in *. subst pos vel.
  unfold Entity.getPosition, Entity.getAnchor, Entity.applyForce. simpl.
  rewrite calculateElasticity_self.
  unfold Entity.applyAnchorDamping, Entity.applyVelocity, Entity.show,
    Vec.add, Vec.mult. simpl.
  destruct an as [ax ay]. simpl.
  repeat f_equal; lra.
Qed.

(** A particle at rest at its anchor stays exactly there through a frame
    without pointer, and is drawn at its anchor. *)
Theorem rest_is_fixed_point (p : Host) (e : Entity) :
  mouseX p = 0 \/ mouseY p = 0 ->
  atRest e ->
  drawEntity p e
  = (e, ellipse (vx (anchor e)) (vy (anchor e))
          settings.dotSize settings.dotSize).
Proof. intros Hp He. now apply drawEntity_atRest. Qed.

Lemma rest_is_fixed_point_witness :
  drawEntity (mkHost 0 0 800 600) (Entity.new (createVector 7 9) false)
  = (Entity.new (createVector 7 9) false,
     ellipse (vx (anchor (Entity.new (createVector 7 9) false)))
             (vy (anchor (Entity.new (createVector 7 9) false)))
             settings.dotSize settings.dotSize).
Proof.
  apply (rest_is_fixed_point (mkHost 0 0 800 600)
           (Entity.new (createVector 7 9) false)).
  - left. reflexivity.
  - split; reflexivity.
Defined.

(** A particle at rest within 2.62 of its anchor, with no pointer, moves
    in one frame the fraction [0.95^8] of the way to the anchor, and its
    velocity becomes that step. *)
Theorem relaxation_step (e : Entity) :
  velocity e = createVector 0 0 ->
  Vec.dist (position e) (anchor e) <= 2.62 ->
  let e' := fst (frameWithoutPointer e) in
  velocity e' = createVector (0.95 ^ 8 * (vx (anchor e) - vx (position e)))
                             (0.95 ^ 8 * (vy (anchor e) - vy (position e))) /\
  position e' = Vec.add (position e) (velocity e') /\
  anchor e' = anchor e.
Proof.
  intros Hvel Hd. cbv zeta.
  unfold frameWithoutPointer. cbv zeta.
  rewrite calculateElasticity_linear by exact Hd.
  unfold Entity.show, Entity.applyVelocity, Entity.applyAnchorDamping,
    Entity.applyForce. cbv zeta. simpl.
  rewrite anchorDampingFactor_floor by lra.
  rewrite Hvel. unfold Vec.add, Vec.mult. simpl.
  repeat split. f_equal; lra.
Qed.

Lemma relaxation_step_witness :
  let e := {| position := createVector 1 0; velocity := createVector 0 0;
              anchor := createVector 0 0; debug := false |} in
  let e' := fst (frameWithoutPointer e) in
  velocity e' = createVector (0.95 ^ 8 * (vx (anchor e) - vx (position e)))
                             (0.95 ^ 8 * (vy (anchor e) - vy (position e))) /\
  position e' = Vec.add (position e) (velocity e') /\
  anchor e' = anchor e.
Proof.
  apply (relaxation_step
           {| position := createVector 1 0; velocity := createVector 0 0;
              anchor := createVector 0 0; debug := false |}).
  - reflexivity.
  - simpl. rewrite dist_sym. unfold Vec.dist. simpl. rewrite sqrt_axis; lra.
Defined.

(** ** Velocities stay bounded *)

Lemma gravity_component_abs (a b : Vector) :
  Rabs (vx (calculateGravity a b)) <= 12 /\
  Rabs (vy (calculateGravity a b)) <= 12.
Proof.
  destruct (Req_dec_T (Vec.dist a b) 0) as [Hz | Hnz].
  - apply dist_zero_eq in Hz. subst b. rewrite calculateGravity_self. simpl.
    rewrite Rabs_R0. lra.
  - assert (Hne : a <> b) by (intros ->; apply Hnz; apply dist_self).
    rewrite calculateGravity_formula by exact Hne. simpl.
    unfold settings.maxGravForce. split; apply clamp_abs_le; lra.
Qed.

Lemma elasticity_component_abs (a b : Vector) :
  Rabs (vx (calculateElasticity a b)) <= 20 /\
  Rabs (vy (calculateElasticity a b)) <= 20.
Proof.
  rewrite calculateElasticity_real. simpl. unfold settings.maxEllasticForce.
  split; apply clamp_abs_le; lra.
Qed.

Lemma anchorDamping_component (e : Entity) :
  Rabs (vx (velocity (Entity.applyAnchorDamping e))) <= 0.67 * Rabs (vx (velocity e)) /\
  Rabs (vy (velocity (Entity.applyAnchorDamping e))) <= 0.67 * Rabs (vy (velocity e)).
Proof.
  unfold Entity.applyAnchorDamping. cbv zeta. simpl.
  pose proof (anchorDampingFactor_range (Vec.dist (position e) (anchor e)))
    as [Hpos Hle].
  rewrite !Rabs_mult, (Rabs_pos_eq (Entity.anchorDampingFactor _)) by lra.
  pose proof (Rabs_pos (vx (velocity e))). pose proof (Rabs_pos (vy (velocity e))).
  split; nra.
Qed.

Lemma mouseDamping_component (m : Vector) (e : Entity) :
  Rabs (vx (velocity (Entity.applyMouseDamping m e))) <= Rabs (vx (velocity e)) /\
  Rabs (vy (velocity (Entity.applyMouseDamping m e))) <= Rabs (vy (velocity e)).
Proof.
  destruct (Rle_lt_dec (Vec.dist (position e) m) 30) as [Hle | Hgt].
  - rewrite mouseDamping_near by exact Hle. simpl.
    pose proof (mouseDampingFactor_range (Vec.dist (position e) m)) as [H0 H1].
    rewrite !Rabs_mult, (Rabs_pos_eq (clamp _ 0 1)) by lra.
    pose proof (Rabs_pos (vx (velocity e))). pose proof (Rabs_pos (vy (velocity e))).
    split; nra.
  - rewrite mouseDamping_far by exact Hgt. lra.
Qed.

(** The velocity after the damping steps of a frame, from the velocity
    [e1] has after the optional gravity. *)
Lemma frame_tail_velocity (mp : option Vector) (e1 : Entity) :
  let e2 := Entity.applyForce
              (calculateElasticity (position e1) (anchor e1)) e1 in
  let e3 := Entity.applyAnchorDamping e2 in
  let e4 := match mp with
            | Some m => Entity.applyMouseDamping m e3
            | None => e3
            end in
  Rabs (vx (velocity e4)) <= 0.67 * (Rabs (vx (velocity e1)) + 20) /\
  Rabs (vy (velocity e4)) <= 0.67 * (Rabs (vy (velocity e1)) + 20).
Proof.
  cbv zeta.
  set (e2 := Entity.applyForce (calculateElasticity (position e1) (anchor e1)) e1).
  pose proof (anchorDamping_component e2) as [H3x H3y].
  pose proof (elasticity_component_abs (position e1) (anchor e1)) as [Hex Hey].
  assert (H2x : Rabs (vx (velocity e2)) <= Rabs (vx (velocity e1)) + 20).
  { unfold e2, Entity.applyForce, Vec.add. cbn [velocity vx vy].
    eapply Rle_trans; [apply Rabs_triang | lra]. }
  assert (H2y : Rabs (vy (velocity e2)) <= Rabs (vy (velocity e1)) + 20).
  { unfold e2, Entity.applyForce, Vec.add. cbn [velocity vx vy].
    eapply Rle_trans; [apply Rabs_triang | lra]. }
  destruct mp as [m |].
  - pose proof (mouseDamping_component m (Entity.applyAnchorDamping e2)) as [H4x H4y].
    split; lra.
  - split; lra.
Qed.

Lemma drawEntity_velocity (p : Host) (e : Entity) :
  Rabs (vx (velocity (fst (drawEntity p e))))
  <= 0.67 * (Rabs (vx (velocity e)) + 32) /\
  Rabs (vy (velocity (fst (drawEntity p e))))
  <= 0.67 * (Rabs (vy (velocity e)) + 32).
Proof.
  unfold drawEntity. cbv zeta.
  unfold Entity.getPosition, Entity.getAnchor, Entity.show, Entity.applyVelocity.
  cbn [fst velocity].
  destruct (mousePosition p) as [m |].
  - set (g := calculateGravity (position e) m).
    pose proof (frame_tail_velocity (Some m) (Entity.applyForce g e)) as [Hx Hy].
    cbv beta iota zeta in Hx, Hy.
    pose proof (gravity_component_abs (position e) m) as [Hgx Hgy].
    fold g in Hgx, Hgy.
    assert (H1x : Rabs (vx (velocity (Entity.applyForce g e)))
                  <= Rabs (vx (velocity e)) + 12)
      by (unfold Entity.applyForce, Vec.add; cbn [velocity vx vy];
          eapply Rle_trans; [apply Rabs_triang | lra]).
    assert (H1y : Rabs (vy (velocity (Entity.applyForce g e)))
                  <= Rabs (vy (velocity e)) + 12)
      by (unfold Entity.applyForce, Vec.add; cbn [velocity vx vy];
          eapply Rle_trans; [apply Rabs_triang | lra]).
    split; (eapply Rle_trans; [first [exact Hx | exact Hy] | lra]).
  - pose proof (frame_tail_velocity None e) as [Hx Hy].
    cbv beta iota zeta in Hx, Hy.
    split; (eapply Rle_trans; [first [exact Hx | exact Hy] | lra]).
Qed.

(** Through every frame, whatever the pointer and wherever the particle
    (on the pointer included), each velocity component obeys
    [|v'| <= 0.67 (|v| + 32)]; hence a particle whose velocity components
    are within [[-65, 65]] keeps them there. *)
Theorem frame_keeps_velocity_bounded (p : Host) (e : Entity) :
  (Rabs (vx (velocity (fst (drawEntity p e))))
   <= 0.67 * (Rabs (vx (velocity e)) + 32) /\
   Rabs (vy (velocity (fst (drawEntity p e))))
   <= 0.67 * (Rabs (vy (velocity e)) + 32)) /\
  (velocityBounded e -> velocityBounded (fst (drawEntity p e))).
Proof.
  pose proof (drawEntity_velocity p e) as [Hx Hy].
  split; [split; assumption |].
  unfold velocityBounded. intros [Bx By]. split; lra.
Qed.

Lemma frame_keeps_velocity_bounded_witness :
  velocityBounded (fst (drawEntity (mkHost 500 400 800 600) movingRight)).
Proof.
  apply (frame_keeps_velocity_bounded (mkHost 500 400 800 600) movingRight).
  unfold velocityBounded. simpl. rewrite Rabs_R0, Rabs_R1. lra.
Defined.


(** ** The grid, particle by particle *)

Lemma buildGrid_elements (c r : nat) (s cg rg : R) (e : Entity) :
  In e (buildGrid c r s cg rg) ->
  exists i j, (i < c)%nat /\ (j < r)%nat /\
    e = Entity.new (gridAnchor c r s cg rg i j) (Nat.eqb i 0 && Nat.eqb j 0).
Proof.
  unfold buildGrid. cbv zeta. rewrite in_flat_map.
  intros [i [Hi He]]. apply in_map_iff in He. destruct He as [j [He Hj]].
  apply in_seq in Hi. apply in_seq in Hj.
  exists i, j. repeat split; try lia. now rewrite <- He.
Qed.

Lemma buildGrid_atRest (c r : nat) (s cg rg : R) :
  Forall atRest (buildGrid c r s cg rg).
Proof.
  apply Forall_forall. intros e He.
  apply buildGrid_elements in He. destruct He as [i [j [_ [_ ->]]]].
  split; reflexivity.
Qed.

Lemma nth_error_flat_map_const {A B : Type} (f : A -> list B) (n : nat)
      (l : list A) (i j : nat) :
  (forall a, length (f a) = n) -> (j < n)%nat ->
  nth_error (flat_map f l) (i * n + j)
  = match nth_error l i with
    | Some a => nth_error (f a) j
    | None => None
    end.
Proof.
  intros Hlen Hj. revert i. induction l as [| a l IH]; intros i.
  - simpl. destruct i; destruct (_ + _)%nat; reflexivity.
  - destruct i as [| i]; cbn [flat_map nth_error].
    + simpl. apply nth_error_app1. now rewrite Hlen.
    + rewrite nth_error_app2 by (rewrite Hlen; lia).
      rewrite Hlen. replace (S i * n + j - n)%nat with (i * n + j)%nat by lia.
      apply IH.
Qed.

(** The grid is stored column by column: the particle of column [i] and
    row [j] is at index [i * rows + j], anchored at
    [(i * (dotSize + columnGap) - gridWidth / 2,
      j * (dotSize + rowGap) - gridHeight / 2)], and only the particle of
    index 0 carries the debug flag. *)
Theorem grid_layout (c r : nat) (s cg rg : R) (i j : nat) :
  (i < c)%nat -> (j < r)%nat ->
  nth_error (buildGrid c r s cg rg) (i * r + j)
  = Some (Entity.new (gridAnchor c r s cg rg i j) (Nat.eqb (i * r + j) 0)).
Proof.
  intros Hi Hj. unfold buildGrid. cbv zeta.
  rewrite (nth_error_flat_map_const _ r);
    [| intros a; now rewrite length_map, length_seq | exact Hj].
  rewrite nth_error_seq.
  destruct (Nat.ltb_spec i c) as [_ | Hn]; [| lia].
  rewrite nth_error_map, nth_error_seq.
  destruct (Nat.ltb_spec j r) as [_ | Hn]; [| lia].
  cbn [option_map]. unfold gridAnchor. rewrite !Nat.add_0_l. do 2 f_equal.
  destruct (Nat.eqb_spec (i * r + j) 0) as [H0 | H0];
    destruct (Nat.eqb_spec i 0) as [Hi0 | Hi0];
    destruct (Nat.eqb_spec j 0) as [Hj0 | Hj0];
    simpl; try reflexivity; exfalso; nia.
Qed.

Lemma grid_layout_witness :
  nth_error (buildGrid 2 3 4 10 10) (1 * 3 + 2)
  = Some (Entity.new (gridAnchor 2 3 4 10 10 1 2) (Nat.eqb (1 * 3 + 2) 0)).
Proof. apply (grid_layout 2 3 4 10 10 1 2); lia. Defined.

(** ** Whole frames and reachable pages *)

Lemma drawAll_atRest (p : Host) (es : list Entity) :
  mouseX p = 0 \/ mouseY p = 0 ->
  Forall atRest es ->
  drawAll p es = (es, map dotAtAnchor es).
Proof.
  intros Hp Hes. induction Hes as [| e es He Hes IH]; [reflexivity |].
  rewrite drawAll_cons, (drawEntity_atRest p e Hp He), IH. reflexivity.
Qed.

Lemma draw_setup_absent (p : Host) :
  mouseX p = 0 \/ mouseY p = 0 ->
  draw p setup
  = {| entities := createEntities; looping := true;
       canvas := map dotAtAnchor createEntities |}.
Proof.
  intros Hp. unfold draw. cbn [entities setup looping].
  rewrite (drawAll_atRest p createEntities Hp); [reflexivity |].
  apply buildGrid_atRest.
Qed.

(** With no pointer (a raw coordinate is zero) a frame on the freshly set
    up sketch moves nothing: the particle set is the grid again, each
    particle drawn on its anchor, and the sketch keeps running. *)
Theorem fresh_grid_stays_still (p : Host) :
  mouseX p = 0 \/ mouseY p = 0 ->
  step (Some setup) (Tick p)
  = Some {| entities := createEntities; looping := true;
            canvas := map dotAtAnchor createEntities |}.
Proof.
  intros Hp. cbn [step looping setup].
  change {| entities := createEntities; looping := true; canvas := [] |}
    with setup.
  now rewrite (draw_setup_absent p Hp).
Qed.

Lemma fresh_grid_stays_still_witness :
  step (Some setup) (Tick (mkHost 0 300 800 600))
  = Some {| entities := createEntities; looping := true;
            canvas := map dotAtAnchor createEntities |}.
Proof.
  apply (fresh_grid_stays_still (mkHost 0 300 800 600)).
  left. reflexivity.
Defined.

Lemma drawEntity_dot (p : Host) (e : Entity) :
  centre (snd (drawEntity p e)) = position (fst (drawEntity p e)) /\
  ew (snd (drawEntity p e)) = settings.dotSize /\
  eh (snd (drawEntity p e)) = settings.dotSize /\
  position (fst (drawEntity p e))
  = Vec.add (position e) (velocity (fst (drawEntity p e))).
Proof.
  unfold drawEntity. cbv zeta. unfold Entity.show, centre.
  cbn [fst snd ex ey ew eh].
  destruct (mousePosition p) as [m |].
  - set (e3 := Entity.applyAnchorDamping _).
    assert (Hpos : position (Entity.applyMouseDamping m e3) = position e).
    { unfold Entity.applyMouseDamping. cbv zeta.
      destruct (Rgt_dec _ 30); reflexivity. }
    unfold Entity.applyVelocity. cbn [position velocity]. rewrite Hpos.
    repeat split.
  - repeat split.
Qed.

Lemma drawAll_dots (p : Host) (es : list Entity) :
  map centre (snd (drawAll p es)) = map position (fst (drawAll p es)) /\
  Forall (fun d => ew d = settings.dotSize /\ eh d = settings.dotSize)
    (snd (drawAll p es)) /\
  Forall2 (fun e e' => position e' = Vec.add (position e) (velocity e'))
    es (fst (drawAll p es)) /\
  length (fst (drawAll p es)) = length es.
Proof.
  induction es as [| e rest IH].
  - simpl. repeat split; constructor.
  - rewrite drawAll_cons. cbn [fst snd map length].
    destruct (drawEntity_dot p e) as [Hc [Hw [Hh Hpos]]].
    destruct IH as [Hm [Hf [Hi Hl]]].
    rewrite Hc, Hm, Hl. repeat split.
    + constructor; [split; assumption | exact Hf].
    + constructor; [exact Hpos | exact Hi].
Qed.

(** Every frame, whatever the pointer, draws every particle exactly once,
    in order, as a dot of the configured size centred on the position the
    particle has after the frame, which is its old position plus its new
    velocity; the frame keeps the number of particles and the running
    state. *)
Theorem draw_renders_each_particle (p : Host) (s : Sketch) :
  map centre (canvas (draw p s)) = map position (entities (draw p s)) /\
  Forall (fun d => ew d = settings.dotSize /\ eh d = settings.dotSize)
    (canvas (draw p s)) /\
  Forall2 (fun e e' => position e' = Vec.add (position e) (velocity e'))
    (entities s) (entities (draw p s)) /\
  length (entities (draw p s)) = length (entities s) /\
  looping (draw p s) = looping s.
Proof.
  rewrite draw_entities, draw_canvas, draw_looping.
  destruct (drawAll_dots p (entities s)) as [Hm [Hf [Hi Hl]]].
  repeat split; assumption.
Qed.

(** The particle [movingRight] through a frame without pointer: it ends
    at [(0.95^8, 0)]. *)
Lemma drawEntity_movingRight :
  position (fst (drawEntity (mkHost 0 0 800 600) movingRight))
  = createVector (0.95 ^ 8) 0.
Proof.
  assert (Hp : mousePosition (mkHost 0 0 800 600) = None)
    by (apply mousePosition_None; left; reflexivity).
  unfold drawEntity. cbv zeta. rewrite Hp.
  unfold Entity.getPosition, Entity.getAnchor, Entity.show,
    Entity.applyVelocity, Entity.applyAnchorDamping, Entity.applyForce.
  cbv zeta. cbn [fst position velocity anchor movingRight].
  rewrite calculateElasticity_self, dist_self.
  rewrite anchorDampingFactor_floor by lra.
  unfold Vec.add, Vec.mult. cbn [vx vy]. f_equal; lra.
Qed.

Lemma draw_renders_each_particle_witness :
  let s := {| entities := [movingRight]; looping := true; canvas := [] |} in
  map centre (canvas (draw (mkHost 0 0 800 600) s))
  = [createVector (0.95 ^ 8) 0].
Proof.
  cbv zeta.
  destruct (draw_renders_each_particle (mkHost 0 0 800 600)
              {| entities := [movingRight]; looping := true; canvas := [] |})
    as [Hc _].
  rewrite Hc, draw_entities. cbn [entities].
  rewrite drawAll_cons. cbn [fst map drawAll].
  now rewrite drawEntity_movingRight.
Defined.

Lemma drawAll_velocityBounded (p : Host) (es : list Entity) :
  Forall velocityBounded es -> Forall velocityBounded (fst (drawAll p es)).
Proof.
  induction es as [| e rest IH]; intros Hall.
  - constructor.
  - rewrite drawAll_cons. cbn [fst].
    inversion Hall as [| ? ? Hb Hrest]; subst.
    constructor; [| now apply IH].
    destruct (drawEntity_velocity p e) as [Hx Hy].
    destruct Hb as [Bx By]. split; lra.
Qed.

Lemma createEntities_velocityBounded : Forall velocityBounded createEntities.
Proof.
  apply Forall_forall. intros e He.
  apply buildGrid_elements in He. destruct He as [i [j [_ [_ ->]]]].
  unfold velocityBounded. simpl. rewrite Rabs_R0. lra.
Qed.

Lemma step_pageInvariant (pg : Page) (ev : Event) :
  pageInvariant pg -> pageInvariant (step pg ev).
Proof.
  intros Hinv. destruct ev; cbn [step].
  - cbn [pageInvariant setup entities].
    split; [reflexivity | apply createEntities_velocityBounded].
  - destruct pg as [s |]; [| exact I].
    destruct (looping s); [| exact Hinv].
    destruct Hinv as [Hanc Hvel]. cbn [pageInvariant]. split.
    + now rewrite draw_anchor.
    + rewrite draw_entities. now apply drawAll_velocityBounded.
  - destruct pg as [s |]; [| exact I]. exact Hinv.
  - destruct pg as [s |]; [| exact I]. exact Hinv.
  - destruct pg as [s |]; [| exact I].
    cbn [pageInvariant entities].
    split; [reflexivity | apply createEntities_velocityBounded].
Qed.

Lemma run_pageInvariant (evs : list Event) (pg : Page) :
  pageInvariant pg -> pageInvariant (run pg evs).
Proof.
  revert pg. induction evs as [| ev rest IH]; intros pg Hinv; cbn [run].
  - exact Hinv.
  - apply IH. now apply step_pageInvariant.
Qed.

(** Whatever the page has gone through since it was loaded (setup,
    frames with any pointer, pauses, resumes, rebuilds), once it is set up
    the sketch holds exactly columns x rows = 3200 particles, their
    anchors are those of the grid, in order, and every velocity component
    lies within [[-65, 65]]. *)
Theorem reachable_pages_invariant (evs : list Event) (s : Sketch) :
  run None evs = Some s ->
  length (entities s) = 3200%nat /\
  map anchor (entities s) = map anchor createEntities /\
  Forall velocityBounded (entities s).
Proof.
  intros Hrun.
  pose proof (run_pageInvariant evs None I) as Hinv.
  rewrite Hrun in Hinv. destruct Hinv as [Hanc Hvel].
  repeat split; try assumption.
  rewrite <- (length_map anchor), Hanc, length_map.
  unfold createEntities. now rewrite length_buildGrid.
Qed.

Lemma reachable_pages_invariant_witness :
  let s := noLoop (draw (mkHost 405 305 800 600) setup) in
  length (entities s) = 3200%nat /\
  map anchor (entities s) = map anchor createEntities /\
  Forall velocityBounded (entities s).
Proof.
  apply (reachable_pages_invariant
           [Setup; Tick (mkHost 405 305 800 600); Pause]).
  reflexivity.
Defined.

(** ** The page component *)

(** After the visibility effect has run on a page that is set up, the
    sketch is running exactly when the element is visible and the mouse is
    not stagnant, and the particles are untouched; running the effect
    twice is running it once.  Before setup the effect does nothing, so a
    pause requested then is lost: the sketch set up afterwards runs. *)
Theorem lifecycle_effect_sets_running_state (isVisible isStagnant : bool) :
  (forall s,
      isRunning (lifecycleEffect isVisible isStagnant (Some s))
      = isVisible && negb isStagnant /\
      positions (lifecycleEffect isVisible isStagnant (Some s))
      = positions (Some s)) /\
  (forall pg,
      lifecycleEffect isVisible isStagnant
        (lifecycleEffect isVisible isStagnant pg)
      = lifecycleEffect isVisible isStagnant pg) /\
  lifecycleEffect isVisible isStagnant None = None /\
  isRunning (step (lifecycleEffect isVisible isStagnant None) Setup) = true.
Proof.
  unfold lifecycleEffect, isPaused.
  split; [| split; [| split]].
  - intros s. destruct isVisible, isStagnant; split; reflexivity.
  - intros [s |]; destruct isVisible, isStagnant; reflexivity.
  - destruct isVisible, isStagnant; reflexivity.
  - destruct isVisible, isStagnant; reflexivity.
Qed.

(** ** The hook useOnce *)

Lemma useOnce_fold (deps : list (bool * bool)) (st : OnceState) :
  forallb (fun d => negb (snd d)) deps = true ->
  fold_left (fun st d => useOnceEffect (fst d) (snd d) st) deps st
  = {| hasRun := hasRun st || existsb fst deps;
       calls := calls st
                + (if negb (hasRun st) && existsb fst deps then 1 else 0) |}.
Proof.
  revert st. induction deps as [| [trigger reset] rest IH]; intros [h n] Hall.
  - simpl. rewrite orb_false_r, andb_false_r, Nat.add_0_r. reflexivity.
  - cbn [forallb snd] in Hall. apply andb_true_iff in Hall.
    destruct Hall as [Hr Hrest]. destruct reset; [discriminate |].
    cbn [fold_left fst snd existsb]. rewrite (IH _ Hrest).
    unfold useOnceEffect. cbn [hasRun calls].
    destruct trigger, h, (existsb fst rest); simpl; f_equal; lia.
Qed.

(** As long as [reset] stays false, [useOnce] calls [fn] at most once over
    any sequence of effect runs: exactly once if some run had [trigger]
    true, never otherwise. *)
Theorem useOnce_calls_at_most_once (deps : list (bool * bool)) :
  forallb (fun d => negb (snd d)) deps = true ->
  calls (useOnceRuns deps) = (if existsb fst deps then 1 else 0)%nat /\
  hasRun (useOnceRuns deps) = existsb fst deps /\
  (calls (useOnceRuns deps) <= 1)%nat.
Proof.
  intros Hall. unfold useOnceRuns. rewrite (useOnce_fold deps _ Hall).
  cbn [hasRun calls negb andb orb Nat.add].
  destruct (existsb fst deps); repeat split; lia.
Qed.

Lemma useOnce_calls_at_most_once_witness :
  calls (useOnceRuns [(false, false); (true, false); (true, false)]) = 1%nat.
Proof.
  apply (useOnce_calls_at_most_once
           [(false, false); (true, false); (true, false)]).
  reflexivity.
Defined.
